(** * sqlglotXllm: the LLM-backed SingleStore conversion pipeline

    A shallow embedding of [sqlglot/llm_wrapper.py] (class [LLMWrapper]) and
    of [sqlglot/procedure.py], followed by the properties of the pipeline:
    classification, per-statement conversion with fallback, decomposition,
    reassembly and the propagation of failures.

    Python values are modelled as follows.
    - [str] is a list of Unicode code points ([N]); [strip], [rstrip],
      [splitlines], [split] and [join] follow CPython's definitions,
      including its tables of white space and line boundaries.
    - An exception is a value of [Exc]; a computation that may raise and
      that talks to a collaborator is a function from the trace of calls
      made so far to a result and the extended trace (type [M]).
    - The collaborators (sqlglot's [parse_one] and [transpile], the Ollama
      chat service, the HTTP endpoint of [procedure.py]) are the fields of
      the class [Collaborators]. *)

From Stdlib Require Import List NArith Bool String Ascii Lia.
Import ListNotations.

Set Implicit Arguments.

(* ================================================================== *)
(** ** Python strings                                                   *)
(* ================================================================== *)

Module Py.

Local Open Scope N_scope.

(** A code point. *)
Definition char := N.

(** A Python [str]. *)
Definition str := list char.

(** An ASCII literal of the source, as code points. *)
Definition lit (s : string) : str :=
  map N_of_ascii (list_ascii_of_string s).

Definition char_eqb (a b : char) : bool := N.eqb a b.

(** [a == b] on [str]. *)
Fixpoint str_eqb (a b : str) : bool :=
  match a, b with
  | [], [] => true
  | x :: a', y :: b' => char_eqb x y && str_eqb a' b'
  | _, _ => false
  end.

Definition between (lo hi c : N) : bool := N.leb lo c && N.leb c hi.

(** [str.isspace] on one code point: CPython's [_PyUnicode_IsWhitespace]. *)
Definition isspace (c : char) : bool :=
  between 9 13 c || between 28 31 c || N.eqb c 32 || N.eqb c 133
  || N.eqb c 160 || N.eqb c 5760 || between 8192 8202 c
  || N.eqb c 8232 || N.eqb c 8233 || N.eqb c 8239 || N.eqb c 8287
  || N.eqb c 12288.

(** The line boundaries of [str.splitlines]: CPython's
    [_PyUnicode_IsLinebreak]. *)
Definition is_linebreak (c : char) : bool :=
  between 10 13 c || between 28 30 c || N.eqb c 133
  || N.eqb c 8232 || N.eqb c 8233.

Definition CR : char := 13.
Definition LF : char := 10.

Fixpoint drop_while (p : char -> bool) (s : str) : str :=
  match s with
  | [] => []
  | c :: s' => if p c then drop_while p s' else s
  end.

(** [s.lstrip()], [s.rstrip()] and [s.strip()]. *)
Definition lstrip (s : str) : str := drop_while isspace s.
Definition rstrip (s : str) : str := rev (drop_while isspace (rev s)).
Definition strip (s : str) : str := rstrip (lstrip s).

(** [c in chars]. *)
Definition mem (chars : str) (c : char) : bool := existsb (char_eqb c) chars.

(** [s.rstrip(chars)]: every trailing code point that is one of [chars]
    is removed. *)
Definition rstrip_chars (chars : str) (s : str) : str :=
  rev (drop_while (mem chars) (rev s)).

(** [s.splitlines()], with [cur] the line read so far, reversed.  A carriage
    return followed by a line feed is one boundary; no empty line follows
    the last boundary. *)
Fixpoint splitlines_from (cur : str) (s : str) : list str :=
  match s with
  | [] => match cur with [] => [] | _ :: _ => [rev cur] end
  | c :: s' =>
      if char_eqb c CR then
        match s' with
        | d :: s'' =>
            if char_eqb d LF then rev cur :: splitlines_from [] s''
            else rev cur :: splitlines_from [] s'
        | [] => rev cur :: splitlines_from [] s'
        end
      else if is_linebreak c then rev cur :: splitlines_from [] s'
      else splitlines_from (c :: cur) s'
  end.

Definition splitlines (s : str) : list str := splitlines_from [] s.

(** [s.split(sep)] for a separator of one code point, with [cur] the field
    read so far, reversed: there is one field more than separators. *)
Fixpoint split_from (sep : char) (cur : str) (s : str) : list str :=
  match s with
  | [] => [rev cur]
  | c :: s' =>
      if char_eqb c sep then rev cur :: split_from sep [] s'
      else split_from sep (c :: cur) s'
  end.

Definition split (sep : char) (s : str) : list str := split_from sep [] s.

(** [sep.join(parts)]. *)
Fixpoint join (sep : str) (parts : list str) : str :=
  match parts with
  | [] => []
  | [p] => p
  | p :: rest => p ++ sep ++ join sep rest
  end.

(** [s.upper()] on the letters a to z.  Other code points are left as they
    are: Python's full case mapping differs on some of them, but maps no
    code point outside a to z to one of the letters of PROCEDURE, so the
    comparison made by [_query_type] is decided alike. *)
Definition upper_char (c : char) : char :=
  if between 97 122 c then c - 32 else c.

Definition upper (s : str) : str := map upper_char s.

(** Truthiness of a [str]: [if s] holds for a non-empty string. *)
Definition truthy (s : str) : bool :=
  match s with [] => false | _ :: _ => true end.

End Py.

Import Py.

(* ================================================================== *)
(** ** Exceptions, collaborators and the trace of calls                 *)
(* ================================================================== *)

(** The parties a conversion talks to. *)
Inductive Collaborator : Type :=
| Parser        (* sqlglot.parse_one *)
| Transpiler    (* sqlglot.transpile *)
| Assistant     (* ollama.chat *)
| Endpoint.     (* the HTTP endpoint of procedure.py *)

(** Python exceptions, all of them instances of [Exception].  An exception
    raised inside a collaborator is carried as it is, with a description
    chosen by the collaborator. *)
Inductive Exc : Type :=
| Foreign (who : Collaborator) (what : str)
| IndexError                          (* [l[0]] on an empty list *)
| HTTPError (status : N)              (* [response.raise_for_status()] *)
| ValueError (msg : str) (cause : Exc). (* [raise ValueError(msg) from cause] *)

(** A chat message: [{"role": ..., "content": ...}]. *)
Record Message : Type := { role : str; content : str }.

(** The body that [procedure.py] posts:
    [{"model": model, "prompt": prompt, "stream": False}]. *)
Record Payload : Type :=
  { payload_model : str; payload_prompt : str; payload_stream : bool }.

(** An HTTP response: its status, and its body decoded as a JSON object,
    with its values taken as strings ([None] when the body cannot be decoded
    as JSON). *)
Record HttpResponse : Type :=
  { status_code : N; json : option (list (str * str)) }.

(** What [_query_type] can observe of a parsed expression: whether it is an
    instance of [exp.Create], of [exp.Insert], of [exp.DDL], and its [kind]
    property ([None] when absent).  The class hierarchy of sqlglot is not
    fixed here: every combination of answers is an expression. *)
Record Expression : Type :=
  { is_Create : bool; is_Insert : bool; is_DDL : bool; kind : option str }.

(** One call to a collaborator, with the arguments the source passes. *)
Inductive Event : Type :=
| ParseOne (sql read : str)
    (* [parse_one(sql, read=read)] *)
| Transpile (sql read write : str)
    (* [transpile(sql, read=read, write=write)] *)
| OllamaChat (model : str) (messages : list Message)
    (* [ollama.chat(model=model, messages=messages)] *)
| RequestsPost (url : str) (payload : Payload) (timeout : option N).
    (* [requests.post(url, json=payload, timeout=timeout)] *)

Definition Trace := list Event.

(** The timeout a call is issued with.  [ollama.chat] is called with a model
    and messages only, on the package's default client: no timeout. *)
Definition timeout_of (ev : Event) : option N :=
  match ev with
  | RequestsPost _ _ t => t
  | ParseOne _ _ | Transpile _ _ _ | OllamaChat _ _ => None
  end.

(** Whether a call goes to the generative assistant. *)
Definition is_assistant_call (ev : Event) : bool :=
  match ev with
  | OllamaChat _ _ | RequestsPost _ _ _ => true
  | ParseOne _ _ | Transpile _ _ _ => false
  end.

(** The collaborators.  A result [inl what] is an exception raised by the
    collaborator.  The parser and the transpiler are functions of their
    arguments; the assistant and the endpoint may answer differently from
    call to call, so they also read the trace of the calls made before.
    [ollama_chat] gives [response["message"]["content"]]. *)
Class Collaborators : Type :=
  { parse_one : str -> str -> str + Expression;
    transpile : str -> str -> str -> str + list str;
    ollama_chat : Trace -> str -> list Message -> str + str;
    requests_post : Trace -> str -> Payload -> option N -> str + HttpResponse }.

(** A computation: from the trace so far to a value or an exception, and the
    trace extended by the calls made. *)
Definition M (A : Type) : Type := Trace -> (Exc + A) * Trace.

Definition ret {A : Type} (a : A) : M A := fun tr => (inr a, tr).

Definition raise {A : Type} (e : Exc) : M A := fun tr => (inl e, tr).

Definition bind {A B : Type} (m : M A) (k : A -> M B) : M B :=
  fun tr =>
    match m tr with
    | (inl e, tr') => (inl e, tr')
    | (inr a, tr') => k a tr'
    end.

(** [try: m  except Exception as e: h e]. *)
Definition try_except {A : Type} (m : M A) (h : Exc -> M A) : M A :=
  fun tr =>
    match m tr with
    | (inl e, tr') => h e tr'
    | (inr a, tr') => (inr a, tr')
    end.

Declare Scope py_scope.
Delimit Scope py_scope with py.
Notation "x <- m ;; k" := (bind m (fun x => k))
  (at level 61, m at next level, right associativity) : py_scope.
Open Scope py_scope.

(** A call to a collaborator: the call is recorded, an exception of the
    collaborator is raised as [Foreign]. *)
Definition call {A : Type} (who : Collaborator) (ev : Event)
    (answer : Trace -> str + A) : M A :=
  fun tr =>
    (match answer tr with
     | inl what => inl (Foreign who what)
     | inr a => inr a
     end, tr ++ [ev]).

(** [l[0]]. *)
Definition item0 (l : list str) : M str :=
  match l with
  | [] => raise IndexError
  | x :: _ => ret x
  end.

(** [d.get(key, default)] on a JSON object. *)
Fixpoint dict_get (d : list (str * str)) (key default : str) : str :=
  match d with
  | [] => default
  | (k, v) :: d' => if str_eqb k key then v else dict_get d' key default
  end.

Definition nl : str := [LF].

(* ================================================================== *)
(** ** The prompt templates of llm_wrapper.py                           *)
(* ================================================================== *)

(** A template with named fields, used through [str.format] with every
    field given, is a function of its fields. *)

Definition bullet : str := [8226%N].                 (* U+2022 *)
Definition apostrophe_as_stored : str := [226%N; 8364%N; 8482%N].
  (* the three code points U+00E2 U+20AC U+2122 that the source file holds
     between "SingleStore" and "s procedural" *)

Definition STORED_PROCEDURE_PROMPT (procedure : str) : str :=
  lit "You are an expert in SingleStore Helios stored-procedure syntax and "
  ++ lit "semantics.  Your job is to take the INPUT_PROCEDURE, identify any "
  ++ lit "language constructs or SQL features that are not supported by SingleStore, "
  ++ lit "and emit a fully valid SingleStore stored procedure as OUTPUT_PROCEDURE." ++ nl ++ nl
  ++ lit "Make these changes automatically:" ++ nl
  ++ bullet ++ lit " Rewrite the header as CREATE OR REPLACE PROCEDURE, include any RETURNS "
  ++ lit "clause and the appropriate AUTHORIZE AS DEFINER or AUTHORIZE AS CURRENT_USER "
  ++ lit "clause." ++ nl
  ++ bullet ++ lit " Declare all local variables with DECLARE and default-value assignments, "
  ++ lit "remove unsupported modifiers on query-type parameters." ++ nl
  ++ bullet ++ lit " Replace any multi-row returns with ECHO SELECT to emit a rowset, or use "
  ++ lit "RETURNS QUERY(...) where appropriate." ++ nl
  ++ bullet ++ lit " Wrap the procedure body between DELIMITER // and DELIMITER ; so that "
  ++ lit "semicolons within the body are handled correctly by MySQL clients." ++ nl
  ++ bullet ++ lit " Strip or refactor any DDL statements that SingleStore does not allow "
  ++ lit "inside procedures invoked from pipelines." ++ nl
  ++ bullet ++ lit " Ensure that any unsupported statements (for example EXPLAIN BALANCE or "
  ++ lit "DDL inside a pipeline) are either removed or rewritten to SingleStore "
  ++ lit "equivalents." ++ nl
  ++ bullet ++ lit " Preserve nested DECLARE blocks, %ROWTYPE and %TYPE uses, and loop or "
  ++ lit "control-flow constructs, translating them into SingleStore"
  ++ apostrophe_as_stored ++ lit "s procedural "
  ++ lit "extensions." ++ nl
  ++ lit "At the end, output the converted procedure code only, formatted with "
  ++ lit "appropriate DELIMITER commands and SQL fences." ++ nl ++ nl
  ++ lit "Here is the procedure to convert.  Replace INPUT_PROCEDURE with the original "
  ++ lit "routine:" ++ nl ++ nl ++ lit "INPUT_PROCEDURE:" ++ nl
  ++ procedure
  ++ nl ++ nl ++ lit "OUTPUT_PROCEDURE:".

Definition BREAKDOWN_PROMPT (procedure : str) : str :=
  lit "List each data manipulation statement (SELECT, INSERT, UPDATE, DELETE, "
  ++ lit "MERGE) from the following stored procedure. Return one statement per "
  ++ lit "line in the same order and do not include any additional text." ++ nl ++ nl
  ++ lit "STORED_PROCEDURE:" ++ nl
  ++ procedure
  ++ nl ++ nl ++ lit "STATEMENTS:".

Definition REASSEMBLE_PROMPT (procedure converted : str) : str :=
  STORED_PROCEDURE_PROMPT procedure
  ++ nl ++ lit "Use these SingleStore statements for the procedure body:" ++ nl
  ++ converted
  ++ nl.

(* ================================================================== *)
(** ** llm_wrapper.py: class LLMWrapper                                 *)
(* ================================================================== *)

(** [self]: the instance holds the model's name. *)
Record LLMWrapper : Type := { model : str }.

(** [LLMWrapper()]: the default model. *)
Definition new_LLMWrapper : LLMWrapper := {| model := lit "llama3" |}.

(** [(expression.kind or "")]. *)
Definition kind_or_empty (expression : Expression) : str :=
  match kind expression with
  | Some k => if truthy k then k else lit ""
  | None => lit ""
  end.

(** [_query_type], lines 58-65. *)
Definition _query_type (expression : Expression) : str :=
  if is_Create expression
     && str_eqb (upper (kind_or_empty expression)) (lit "PROCEDURE")
  then lit "stored procedure"
  else if is_Insert expression then lit "insert query"
  else if is_DDL expression then lit "DDL query"
  else lit "query".

(** [_prompt], lines 67-70. *)
Definition _prompt (kind : str) (sql : str) (dialect : option str) : str :=
  if str_eqb kind (lit "stored procedure") then STORED_PROCEDURE_PROMPT sql
  else lit "Double check that the following " ++ kind
       ++ lit " is valid SingleStore SQL:" ++ nl ++ sql.

(** The comprehension of line 81:
    [[line.strip() for line in content.splitlines() if line.strip()]]. *)
Definition stripped_lines (content : str) : list str :=
  map strip (filter (fun line => truthy (strip line)) (splitlines content)).

Section Pipeline.

Context {C : Collaborators}.

Definition call_parse_one (sql read : str) : M Expression :=
  call Parser (ParseOne sql read) (fun _ => parse_one sql read).

Definition call_transpile (sql read write : str) : M (list str) :=
  call Transpiler (Transpile sql read write) (fun _ => transpile sql read write).

Definition call_ollama_chat (model : str) (messages : list Message) : M str :=
  call Assistant (OllamaChat model messages)
       (fun tr => ollama_chat tr model messages).

(** [_decompose_procedure], lines 72-81. *)
Definition _decompose_procedure (self : LLMWrapper) (sql : str)
    : M (list str) :=
  let prompt := BREAKDOWN_PROMPT sql in
  let messages :=
    [ {| role := lit "system"; content := lit "You extract SQL statements." |};
      {| role := lit "user"; content := prompt |} ] in
  content <- call_ollama_chat (model self) messages ;;
  ret (stripped_lines content).

(** [_reassemble_procedure], lines 83-91. *)
Definition _reassemble_procedure (self : LLMWrapper) (original converted : str)
    : M str :=
  let prompt := REASSEMBLE_PROMPT original converted in
  let messages :=
    [ {| role := lit "system";
         content := lit "You translate SQL between dialects." |};
      {| role := lit "user"; content := prompt |} ] in
  content <- call_ollama_chat (model self) messages ;;
  ret (strip content).

(** The body of the loop of [_transpile_procedure], lines 98-103, up to the
    value appended to [converted]. *)
Definition convert_statement (dialect : str) (stmt : str) : M str :=
  let text := rstrip_chars (lit ";") stmt in
  text <- try_except
            (l <- call_transpile text dialect (lit "singlestore") ;; item0 l)
            (fun _ => ret text) ;;
  ret (text ++ lit ";").

(** The loop of [_transpile_procedure], lines 96-103: [converted] grows by
    one entry per statement. *)
Fixpoint convert_each (dialect : str) (statements : list str)
    (converted : list str) : M (list str) :=
  match statements with
  | [] => ret converted
  | stmt :: rest =>
      entry <- convert_statement dialect stmt ;;
      convert_each dialect rest (converted ++ [entry])
  end.

(** [_transpile_procedure], lines 93-105. *)
Definition _transpile_procedure (self : LLMWrapper) (sql dialect : str)
    : M str :=
  statements <- _decompose_procedure self sql ;;
  converted <- convert_each dialect statements [] ;;
  let joined := join nl converted in
  _reassemble_procedure self sql joined.

(** [to_singlestore], lines 107-128. *)
Definition to_singlestore (self : LLMWrapper) (sql dialect : str) : M str :=
  expression <- try_except
                  (call_parse_one sql dialect)
                  (fun e => raise (ValueError (lit "Please provide sql.") e)) ;;
  let kind := _query_type expression in
  if str_eqb kind (lit "stored procedure")
  then _transpile_procedure self sql dialect
  else
    l <- call_transpile sql dialect (lit "singlestore") ;;
    transpiled <- item0 l ;;
    let prompt := _prompt kind transpiled None in
    let messages :=
      [ {| role := lit "system";
           content := lit "You translate SQL between dialects." |};
        {| role := lit "user"; content := prompt |} ] in
    content <- call_ollama_chat (model self) messages ;;
    ret (strip content).

(** The default source dialect of [to_singlestore]. *)
Definition default_dialect : str := lit "tsql".

End Pipeline.

(* ================================================================== *)
(** ** procedure.py                                                     *)
(* ================================================================== *)

Module Procedure.

Section Helpers.

Context {C : Collaborators}.

(** [LLM_URL]. *)
Definition LLM_URL : str := lit "http://localhost:11434/api/generate".

(** The default model of the three functions. *)
Definition default_model : str := lit "llama2".

(** [response.raise_for_status()]: a status from 400 to 599 raises. *)
Definition raise_for_status (response : HttpResponse) : M unit :=
  if between 400 599 (status_code response)
  then raise (HTTPError (status_code response))
  else ret tt.

(** [response.json()]. *)
Definition response_json (response : HttpResponse) : M (list (str * str)) :=
  match json response with
  | Some data => ret data
  | None => raise (Foreign Endpoint (lit "JSONDecodeError"))
  end.

(** [_call_llm], lines 14-20. *)
Definition _call_llm (prompt model url : str) : M str :=
  let payload :=
    {| payload_model := model; payload_prompt := prompt;
       payload_stream := false |} in
  response <- call Endpoint (RequestsPost url payload (Some 60%N))
                (fun tr => requests_post tr url payload (Some 60%N)) ;;
  _ <- raise_for_status response ;;
  data <- response_json response ;;
  ret (dict_get data (lit "response") (lit "")).

(** [extract_transpilable_sql], lines 23-32. *)
Definition extract_transpilable_sql (procedure model url : str)
    : M (list str) :=
  let prompt :=
    lit "Extract the SQL statements from the following stored procedure. "
    ++ lit "Return the statements separated by a semicolon." ++ nl
    ++ procedure in
  raw <- _call_llm prompt model url ;;
  ret (map strip (filter (fun s => truthy (strip s)) (split 59%N raw))).

(** The generator of lines 46-48, as [join] consumes it: the first
    statement that fails ends it with the exception. *)
Fixpoint transpile_all (read write : str) (statements : list str)
    : M (list str) :=
  match statements with
  | [] => ret []
  | stmt :: rest =>
      l <- call_transpile stmt read write ;;
      first <- item0 l ;;
      others <- transpile_all read write rest ;;
      ret (first :: others)
  end.

(** [transpile_procedure], lines 35-50. *)
Definition transpile_procedure (procedure read write model url : str)
    : M str :=
  statements <- extract_transpilable_sql procedure model url ;;
  converted <- transpile_all read write statements ;;
  let body := join (lit ";" ++ nl) converted ++ lit ";" in
  ret (lit "DELIMITER //" ++ nl ++ body ++ nl ++ lit "//" ++ nl
       ++ lit "DELIMITER ;").

End Helpers.

End Procedure.

(* ================================================================== *)
(** ** The specification's vocabulary                                   *)
(* ================================================================== *)

(** The four handling classes of the specification. *)
Inductive HandlingClass : Type :=
| StoredProcedure
| Insert
| DDL
| Generic.

(** The string [_query_type] returns for a class. *)
Definition class_name (c : HandlingClass) : str :=
  match c with
  | StoredProcedure => lit "stored procedure"
  | Insert => lit "insert query"
  | DDL => lit "DDL query"
  | Generic => lit "query"
  end.

(** Two strings that differ by the case of their letters only. *)
Definition same_ignoring_case (a b : str) : Prop := upper a = upper b.

(** The specification's rule 1: a creation statement whose declared object
    kind is PROCEDURE, whatever the case of its letters. *)
Definition creates_procedure (e : Expression) : Prop :=
  is_Create e = true /\ same_ignoring_case (kind_or_empty e) (lit "procedure").

(** The classifier as the specification words it: four rules, the first
    that matches wins. *)
Inductive classified : Expression -> HandlingClass -> Prop :=
| rule_procedure e :
    creates_procedure e -> classified e StoredProcedure
| rule_insert e :
    ~ creates_procedure e -> is_Insert e = true -> classified e Insert
| rule_ddl e :
    ~ creates_procedure e -> is_Insert e = false -> is_DDL e = true ->
    classified e DDL
| rule_generic e :
    ~ creates_procedure e -> is_Insert e = false -> is_DDL e = false ->
    classified e Generic.

(** The statement terminator. *)
Definition terminator : str := lit ";".

(** The specification's wording of the first step of per-statement
    conversion: a single trailing terminator is removed. *)
Definition strip_single_terminator (s : str) : str :=
  match rev s with
  | c :: r => if char_eqb c 59%N then rev r else s
  | [] => s
  end.

(** The specification's wording of decomposition: the response split into
    lines, each line trimmed, the lines left empty discarded. *)
Definition trimmed_nonempty_lines (response : str) : list str :=
  filter truthy (map strip (splitlines response)).

(** The deterministic transpiler fails on [text]: it raises, or it yields
    no statement, so that [transpile(...)[0]] raises. *)
Definition transpiler_fails {C : Collaborators} (text dialect : str) : Prop :=
  match transpile text dialect (lit "singlestore") with
  | inl _ => True
  | inr [] => True
  | inr (_ :: _) => False
  end.

(** The entry the loop of [_transpile_procedure] appends for a statement,
    read off the transpiler's answer. *)
Definition entry_of {C : Collaborators} (dialect stmt : str) : str :=
  let text := rstrip_chars (lit ";") stmt in
  match transpile text dialect (lit "singlestore") with
  | inr (t :: _) => t ++ lit ";"
  | _ => text ++ lit ";"
  end.

(** The transpiler call the loop makes for a statement. *)
Definition transpile_event (dialect stmt : str) : Event :=
  Transpile (rstrip_chars (lit ";") stmt) dialect (lit "singlestore").

(** The messages of the three chat calls of [LLMWrapper]. *)
Definition breakdown_messages (sql : str) : list Message :=
  [ {| role := lit "system"; content := lit "You extract SQL statements." |};
    {| role := lit "user"; content := BREAKDOWN_PROMPT sql |} ].

Definition reassemble_messages (original converted : str) : list Message :=
  [ {| role := lit "system";
       content := lit "You translate SQL between dialects." |};
    {| role := lit "user"; content := REASSEMBLE_PROMPT original converted |} ].

Definition double_check_messages (kind transpiled : str) : list Message :=
  [ {| role := lit "system";
       content := lit "You translate SQL between dialects." |};
    {| role := lit "user";
       content := lit "Double check that the following " ++ kind
                  ++ lit " is valid SingleStore SQL:" ++ nl ++ transpiled |} ].

(** The calls of [LLMWrapper], by the step that makes them. *)
Definition parse_call (sql dialect : str) : Event := ParseOne sql dialect.

Definition transpile_call (sql dialect : str) : Event :=
  Transpile sql dialect (lit "singlestore").

Definition breakdown_call (self : LLMWrapper) (sql : str) : Event :=
  OllamaChat (model self) (breakdown_messages sql).

Definition reassemble_call (self : LLMWrapper) (sql converted : str) : Event :=
  OllamaChat (model self) (reassemble_messages sql converted).

Definition double_check_call (self : LLMWrapper) (kind transpiled : str)
    : Event :=
  OllamaChat (model self) (double_check_messages kind transpiled).

(** A text without line boundary, and a text of white space only. *)
Definition no_linebreak (l : str) : bool :=
  forallb (fun c => negb (is_linebreak c)) l.

Definition blank (l : str) : bool := forallb isspace l.

(** Two code points that are the same letter, in the same case or not. *)
Definition same_letter (a b : char) : Prop :=
  a = b
  \/ ((97 <= a <= 122)%N /\ b = (a - 32)%N)
  \/ ((65 <= a <= 90)%N /\ b = (a + 32)%N).

(** A kind that reads PROCEDURE, letter by letter, in any case. *)
Definition spells_procedure (k : str) : Prop :=
  Forall2 same_letter k (lit "PROCEDURE").

(** The specification's rule 1, read off the parsed unit itself: a creation
    statement that declares a kind, and the kind reads PROCEDURE. *)
Definition declares_procedure (e : Expression) : Prop :=
  is_Create e = true /\ exists k, kind e = Some k /\ spells_procedure k.

(** The lines of a text, stated without [splitlines]: each line is free of
    boundaries; a boundary is a carriage return followed by a line feed, or
    one boundary code point that is not a carriage return before a line
    feed; the text after the last boundary is a line unless it is empty. *)
Inductive lines_of : str -> list str -> Prop :=
| lines_none : lines_of [] []
| lines_last (l : str) :
    l <> [] -> no_linebreak l = true -> lines_of l [l]
| lines_crlf (l rest : str) (ls : list str) :
    no_linebreak l = true -> lines_of rest ls ->
    lines_of (l ++ CR :: LF :: rest) (l :: ls)
| lines_break (l : str) (c : char) (rest : str) (ls : list str) :
    no_linebreak l = true -> is_linebreak c = true ->
    (c = CR -> forall rest', rest <> LF :: rest') ->
    lines_of rest ls ->
    lines_of (l ++ c :: rest) (l :: ls).

(** A text that neither starts nor ends with white space. *)
Definition clean_ends (s : str) : Prop :=
  match s with
  | [] => True
  | c :: _ => isspace c = false /\ isspace (last s c) = false
  end.

(** [s] is [line] without the white space at its two ends, stated without
    [strip]: white space before, [s], white space after. *)
Definition trimmed_of (line s : str) : Prop :=
  exists before after,
    line = before ++ s ++ after
    /\ blank before = true /\ blank after = true /\ clean_ends s.

(** The batch kept from lines: each line trimmed, the lines left empty
    discarded, the others kept in their order. *)
Inductive kept_from : list str -> list str -> Prop :=
| kept_none : kept_from [] []
| kept_discard (line : str) (lines batch : list str) :
    trimmed_of line [] -> kept_from lines batch ->
    kept_from (line :: lines) batch
| kept_keep (line s : str) (lines batch : list str) :
    trimmed_of line s -> s <> [] -> kept_from lines batch ->
    kept_from (line :: lines) (s :: batch).

(** Every call that [m] adds to the trace satisfies [P]. *)
Definition emits {A : Type} (P : Event -> Prop) (m : M A) : Prop :=
  forall tr, exists evs, snd (m tr) = tr ++ evs /\ Forall P evs.

(** A call issued without a timeout. *)
Definition unbounded (ev : Event) : Prop := timeout_of ev = None.

(** Case analysis on the collaborator's answer the goal branches on. *)
Ltac destruct_answer :=
  match goal with
  | |- context [match ?answer with inl _ => _ | inr _ => _ end] =>
      destruct answer
  end.

(** The "invalid input" error of [to_singlestore], line 112. *)
Definition invalid_input (cause : Exc) : Exc :=
  ValueError (lit "Please provide sql.") cause.

Definition is_invalid_input (r : Exc + str) : bool :=
  match r with
  | inl (ValueError _ _) => true
  | _ => false
  end.

(* ================================================================== *)
(** ** A concrete set of collaborators, to run the pipeline on examples *)
(* ================================================================== *)

Module Demo.

Definition procedure_text : str :=
  lit "CREATE PROCEDURE p AS BEGIN SELECT 1; SELEC; END".

(** A parser that rejects the empty text and the text SELEC, and sees a
    procedure in [procedure_text]. *)
Definition demo_parse_one (sql read : str) : str + Expression :=
  if str_eqb sql [] then inl (lit "No expression was parsed from ''")
  else if str_eqb sql (lit "SELEC") then inl (lit "Invalid expression")
  else if str_eqb sql procedure_text
  then inr {| is_Create := true; is_Insert := false; is_DDL := true;
              kind := Some (lit "PROCEDURE") |}
  else inr {| is_Create := false; is_Insert := false; is_DDL := false;
              kind := None |}.

(** A transpiler that rejects SELEC and leaves other text as it is. *)
Definition demo_transpile (sql read write : str) : str + list str :=
  if str_eqb sql (lit "SELEC") then inl (lit "Invalid expression")
  else inr [sql].

(** An assistant that lists three statements when asked to extract, and
    answers with surrounding white space otherwise. *)
Definition demo_ollama_chat (tr : Trace) (model : str)
    (messages : list Message) : str + str :=
  match messages with
  | m :: _ =>
      if str_eqb (content m) (lit "You extract SQL statements.")
      then inr (lit "SELECT 1;;;" ++ nl ++ lit "  SELEC;" ++ nl ++ nl
                ++ lit "SELECT 2" ++ nl)
      else inr (lit " SELECT 1 " ++ nl)
  | [] => inl (lit "no messages")
  end.

Definition demo_requests_post (tr : Trace) (url : str) (payload : Payload)
    (timeout : option N) : str + HttpResponse :=
  inr {| status_code := 200%N;
         json := Some [(lit "response", lit "SELECT 1; SELEC")] |}.

Definition demo : Collaborators :=
  {| parse_one := demo_parse_one;
     transpile := demo_transpile;
     ollama_chat := demo_ollama_chat;
     requests_post := demo_requests_post |}.

(** An assistant that is down. *)
Definition offline_chat (tr : Trace) (model : str) (messages : list Message)
    : str + str :=
  inl (lit "ConnectionError").

Definition offline : Collaborators :=
  {| parse_one := demo_parse_one;
     transpile := demo_transpile;
     ollama_chat := offline_chat;
     requests_post := demo_requests_post |}.

(** An assistant that extracts, and is down when asked to reassemble. *)
Definition flaky_chat (tr : Trace) (model : str) (messages : list Message)
    : str + str :=
  match messages with
  | m :: _ =>
      if str_eqb (content m) (lit "You extract SQL statements.")
      then inr (lit "SELECT 1;" ++ nl)
      else inl (lit "ReadTimeout")
  | [] => inl (lit "no messages")
  end.

Definition flaky : Collaborators :=
  {| parse_one := demo_parse_one;
     transpile := demo_transpile;
     ollama_chat := flaky_chat;
     requests_post := demo_requests_post |}.

(** An assistant that finds no statement to extract. *)
Definition silent_chat (tr : Trace) (model : str) (messages : list Message)
    : str + str :=
  match messages with
  | m :: _ =>
      if str_eqb (content m) (lit "You extract SQL statements.")
      then inr (lit "  " ++ nl ++ nl)
      else inr (lit " DELIMITER //" ++ nl)
  | [] => inl (lit "no messages")
  end.

Definition silent : Collaborators :=
  {| parse_one := demo_parse_one;
     transpile := demo_transpile;
     ollama_chat := silent_chat;
     requests_post := demo_requests_post |}.

End Demo.

(* ================================================================== *)
(** ** streamlit_app.py                                                 *)
(* ================================================================== *)

Module App.

(** [s.lower()] on the letters A to Z; other code points are left as they
    are, which is what Python does on every ASCII name. *)
Definition lower_char (c : char) : char :=
  if between 65 90 c then (c + 32)%N else c.

Definition lower (s : str) : str := map lower_char s.

(** [a <= b] on [str]: the order of the code points, position by
    position, a prefix first. *)
Fixpoint str_leb (a b : str) : bool :=
  match a, b with
  | [], _ => true
  | _ :: _, [] => false
  | x :: a', y :: b' =>
      if N.ltb x y then true
      else if N.ltb y x then false
      else str_leb a' b'
  end.

(** [sorted(l)] on a list of [str]: equal strings are the same value, so
    the sorted list is the one an insertion sort gives. *)
Fixpoint insert_sorted (x : str) (l : list str) : list str :=
  match l with
  | [] => [x]
  | y :: l' => if str_leb x y then x :: l else y :: insert_sorted x l'
  end.

Fixpoint sorted (l : list str) : list str :=
  match l with
  | [] => []
  | x :: l' => insert_sorted x (sorted l')
  end.

(** [x in l]. *)
Definition contains (l : list str) (x : str) : bool := existsb (str_eqb x) l.

(** [l.index(x)]: the first position of [x]; [None] stands for the
    [ValueError] that Python raises when [x] is not in [l]. *)
Fixpoint index (l : list str) (x : str) : option nat :=
  match l with
  | [] => None
  | y :: l' =>
      if str_eqb y x then Some 0
      else match index l' x with
           | Some i => Some (S i)
           | None => None
           end
  end.

(** [source_dialects], lines 11-12, from sqlglot's [DIALECTS]. *)
Definition source_dialects (DIALECTS : list str) : list str :=
  sorted
    (map lower
       (filter (fun d => negb (str_eqb (lower d) (lit "singlestore")))
               DIALECTS)).

(** [default_index], line 13. *)
Definition default_index (DIALECTS : list str) : option nat :=
  if contains (source_dialects DIALECTS) (lit "tsql")
  then index (source_dialects DIALECTS) (lit "tsql")
  else Some 0.

(** What the handler of the button renders: [st.subheader(text)],
    [st.code(body, language=language)], and [st.error(str(e))] for an
    exception [e]. *)
Inductive Widget : Type :=
| Subheader (text : str)
| Code (body language : str)
| Error (e : Exc).

(** The handler of the Convert button, lines 21-29, with [sql] the value of
    the text area and [source] the value of the select box. *)
Definition on_convert {C : Collaborators} (sql source : str)
    : M (list Widget) :=
  if truthy sql then
    try_except
      (translated <- to_singlestore new_LLMWrapper sql source ;;
       ret [Subheader (lit "SingleStore SQL"); Code translated (lit "sql")])
      (fun e =>
         match e with
         | ValueError _ _ => ret [Error e]
         | _ => ret [Error e]
         end)
  else ret [].

End App.

(* ================================================================== *)
(** ** More collaborators for examples                                  *)
(* ================================================================== *)

Module Endpoints.

(** The payload [_call_llm] posts for a prompt. *)
Definition payload_of (prompt model : str) : Payload :=
  {| payload_model := model; payload_prompt := prompt;
     payload_stream := false |}.

(** The request [_call_llm] issues. *)
Definition post_call (prompt model url : str) : Event :=
  RequestsPost url (payload_of prompt model) (Some 60%N).

(** The prompt of [extract_transpilable_sql]. *)
Definition extract_prompt (procedure : str) : str :=
  lit "Extract the SQL statements from the following stored procedure. "
  ++ lit "Return the statements separated by a semicolon." ++ nl
  ++ procedure.

(** The wrapping of [transpile_procedure] around a body. *)
Definition delimited (body : str) : str :=
  lit "DELIMITER //" ++ nl ++ body ++ nl ++ lit "//" ++ nl
  ++ lit "DELIMITER ;".

(** The transpiler call of [procedure.py] for a statement. *)
Definition plain_transpile_event (read write stmt : str) : Event :=
  Transpile stmt read write.

(** The first output of the transpiler on a statement, if any. *)
Definition first_output {C : Collaborators} (read write stmt : str)
    : option str :=
  match transpile stmt read write with
  | inr (t :: _) => Some t
  | _ => None
  end.

(** The exception [transpile(stmt, ...)[0]] ends in, if any. *)
Definition failure_of {C : Collaborators} (read write stmt : str)
    : option Exc :=
  match transpile stmt read write with
  | inl what => Some (Foreign Transpiler what)
  | inr [] => Some IndexError
  | inr (_ :: _) => None
  end.

(** An endpoint that answers with a fixed response. *)
Definition answering (response : HttpResponse) : Collaborators :=
  {| parse_one := Demo.demo_parse_one;
     transpile := Demo.demo_transpile;
     ollama_chat := Demo.demo_ollama_chat;
     requests_post := fun _ _ _ _ => inr response |}.

(** An endpoint that cannot be reached. *)
Definition unreachable : Collaborators :=
  {| parse_one := Demo.demo_parse_one;
     transpile := Demo.demo_transpile;
     ollama_chat := Demo.demo_ollama_chat;
     requests_post := fun _ _ _ _ => inl (lit "ConnectionError") |}.

Definition ok_response (text : str) : HttpResponse :=
  {| status_code := 200%N; json := Some [(lit "response", text)] |}.

Definition keyless_response : HttpResponse :=
  {| status_code := 200%N; json := Some [(lit "model", lit "llama2")] |}.

Definition garbled_response : HttpResponse :=
  {| status_code := 200%N; json := None |}.

Definition unavailable_response : HttpResponse :=
  {| status_code := 503%N; json := Some [(lit "response", lit "SELECT 1")] |}.

(** A transpiler that supports nothing, behind the demonstration parser
    and assistant. *)
Definition unsupporting : Collaborators :=
  {| parse_one := Demo.demo_parse_one;
     transpile := fun _ _ _ => inl (lit "UnsupportedError");
     ollama_chat := Demo.demo_ollama_chat;
     requests_post := Demo.demo_requests_post |}.

(** The expression the demonstration parser gives for a plain statement. *)
Definition plain_expression : Expression :=
  {| is_Create := false; is_Insert := false; is_DDL := false; kind := None |}.

(** The expression it gives for the demonstration procedure. *)
Definition procedure_expression : Expression :=
  {| is_Create := true; is_Insert := false; is_DDL := true;
     kind := Some (lit "PROCEDURE") |}.

(** An assistant whose extraction answer has white space on both sides of
    its lines, a carriage return with a line feed, an empty line, and a
    form feed, which is a line boundary. *)
Definition padded_answer : str :=
  lit "  SELECT 1;  " ++ [9%N; CR; LF] ++ nl ++ lit "SELEC " ++ [12%N]
  ++ lit " x" ++ nl.

Definition padded_chat (tr : Trace) (model : str) (messages : list Message)
    : str + str :=
  inr padded_answer.

Definition padded : Collaborators :=
  {| parse_one := Demo.demo_parse_one;
     transpile := Demo.demo_transpile;
     ollama_chat := padded_chat;
     requests_post := Demo.demo_requests_post |}.

(** A JSON object that holds the response after another key. *)
Definition late_key_response : HttpResponse :=
  {| status_code := 200%N;
     json := Some [(lit "model", lit "llama2");
                   (lit "response", lit "SELECT 1")] |}.

(** A creation of a procedure with its kind in mixed case, and a creation
    of a table. *)
Definition mixed_case_procedure : Expression :=
  {| is_Create := true; is_Insert := false; is_DDL := true;
     kind := Some (lit "Procedure") |}.

Definition table_creation : Expression :=
  {| is_Create := true; is_Insert := false; is_DDL := true;
     kind := Some (lit "TABLE") |}.

End Endpoints.

(** Whether a call goes to the parser, and to the transpiler. *)
Definition is_parser_call (ev : Event) : bool :=
  match ev with
  | ParseOne _ _ => true
  | _ => false
  end.

Definition is_transpiler_call (ev : Event) : bool :=
  match ev with
  | Transpile _ _ _ => true
  | _ => false
  end.

(** A text that does not hold the code point [sep], and a text that holds
    no terminator. *)
Definition no_sep (sep : char) (l : str) : bool :=
  forallb (fun c => negb (char_eqb c sep)) l.

Definition no_terminator (l : str) : bool := no_sep 59%N l.

(* ================================================================== *)
(** ** Properties of the string primitives                              *)
(* ================================================================== *)

Lemma str_eqb_refl (a : str) : str_eqb a a = true.
Proof.
  induction a as [| x a IH]; simpl; [reflexivity |].
  unfold char_eqb. now rewrite N.eqb_refl.
Qed.

Lemma str_eqb_eq (a b : str) : str_eqb a b = true <-> a = b.
Proof.
  split.
  - revert b. induction a as [| x a IH]; intros [| y b] H; simpl in H;
      try discriminate; [reflexivity |].
    apply andb_true_iff in H. destruct H as [Hx Hr].
    apply N.eqb_eq in Hx. apply IH in Hr. now subst.
  - intros ->. apply str_eqb_refl.
Qed.

Lemma str_eqb_neq (a b : str) : str_eqb a b = false <-> a <> b.
Proof.
  split.
  - intros H E. apply str_eqb_eq in E. congruence.
  - intros H. destruct (str_eqb a b) eqn:E; [| reflexivity].
    apply str_eqb_eq in E. contradiction.
Qed.

Lemma drop_while_app_stop (p : char -> bool) (s : str) (c : char) (r : str) :
  forallb p s = true -> p c = false ->
  drop_while p (s ++ c :: r) = c :: r.
Proof.
  induction s as [| x s IH]; simpl; intros Hs Hc.
  - now rewrite Hc.
  - apply andb_true_iff in Hs. destruct Hs as [Hx Hs]. rewrite Hx. auto.
Qed.

Lemma drop_while_all (p : char -> bool) (s : str) :
  forallb p s = true -> drop_while p s = [].
Proof.
  induction s as [| x s IH]; simpl; [reflexivity |].
  intros H. apply andb_true_iff in H. destruct H as [Hx Hs]. rewrite Hx. auto.
Qed.

(** What [drop_while] removes satisfies the test, and what it leaves does
    not start with a code point that does. *)
Lemma drop_while_split (p : char -> bool) (s : str) :
  exists dropped, s = dropped ++ drop_while p s /\ forallb p dropped = true.
Proof.
  induction s as [| x s [d [E F]]]; simpl.
  - now exists [].
  - destruct (p x) eqn:Px.
    + exists (x :: d). simpl. rewrite Px, F. split; [congruence | reflexivity].
    + now exists [].
Qed.

Lemma drop_while_head (p : char -> bool) (s : str) (c : char) (r : str) :
  drop_while p s = c :: r -> p c = false.
Proof.
  induction s as [| x s IH]; simpl; [discriminate |].
  destruct (p x) eqn:Px; [exact IH |].
  intros E. now inversion E; subst.
Qed.

Lemma drop_while_fixed (p : char -> bool) (s : str) :
  drop_while p (drop_while p s) = drop_while p s.
Proof.
  destruct (drop_while p s) as [| c r] eqn:E; [reflexivity |].
  simpl. now rewrite (drop_while_head _ _ E).
Qed.

(** [rstrip_chars] keeps a prefix and removes a run of the given code
    points; what is kept does not end in one of them. *)
Lemma rstrip_chars_split (chars s : str) :
  exists removed,
    s = rstrip_chars chars s ++ removed /\ forallb (mem chars) removed = true.
Proof.
  unfold rstrip_chars.
  destruct (drop_while_split (mem chars) (rev s)) as [d [E F]].
  exists (rev d). split.
  - rewrite <- rev_app_distr, <- E. now rewrite rev_involutive.
  - rewrite forallb_forall in *. intros x Hx. apply F. now apply in_rev.
Qed.

Lemma rstrip_chars_fixed (chars s : str) :
  rstrip_chars chars (rstrip_chars chars s) = rstrip_chars chars s.
Proof.
  unfold rstrip_chars. rewrite rev_involutive. now rewrite drop_while_fixed.
Qed.

Lemma rstrip_chars_last (chars body : str) (c : char) :
  mem chars c = false -> rstrip_chars chars (body ++ [c]) = body ++ [c].
Proof.
  intros H. unfold rstrip_chars. rewrite rev_app_distr. simpl.
  rewrite H. simpl. now rewrite rev_involutive.
Qed.

Lemma rstrip_chars_nil (chars : str) : rstrip_chars chars [] = [].
Proof. reflexivity. Qed.

Lemma rstrip_chars_drop (chars s : str) (c : char) :
  mem chars c = true ->
  rstrip_chars chars (s ++ [c]) = rstrip_chars chars s.
Proof.
  intros H. unfold rstrip_chars. rewrite rev_app_distr. simpl. now rewrite H.
Qed.

(** A run of terminators is a repetition of the terminator. *)
Lemma run_of_terminators (r : str) :
  forallb (mem (lit ";")) r = true -> r = repeat 59%N (List.length r).
Proof.
  induction r as [| x r IH]; simpl; [reflexivity |].
  intros H. apply andb_true_iff in H. destruct H as [Hx Hr].
  unfold mem in Hx. simpl in Hx. rewrite orb_false_r in Hx.
  apply N.eqb_eq in Hx. subst x. f_equal. auto.
Qed.

(* ================================================================== *)
(** ** The classifier                                                   *)
(* ================================================================== *)

Lemma creates_procedure_test (e : Expression) :
  creates_procedure e <->
  is_Create e && str_eqb (upper (kind_or_empty e)) (lit "PROCEDURE") = true.
Proof.
  unfold creates_procedure, same_ignoring_case.
  rewrite andb_true_iff, str_eqb_eq.
  change (upper (lit "procedure")) with (lit "PROCEDURE"). tauto.
Qed.

Lemma class_name_injective (c c' : HandlingClass) :
  class_name c = class_name c' -> c = c'.
Proof. destruct c, c'; intros H; try reflexivity; discriminate H. Qed.

Lemma classified_functional (e : Expression) (c c' : HandlingClass) :
  classified e c -> classified e c' -> c = c'.
Proof.
  intros H H'. inversion H; inversion H'; subst; try reflexivity;
    try contradiction; congruence.
Qed.

Lemma query_type_classified (e : Expression) :
  exists c, classified e c /\ _query_type e = class_name c.
Proof.
  unfold _query_type.
  destruct (is_Create e && str_eqb (upper (kind_or_empty e)) (lit "PROCEDURE"))
    eqn:P.
  - exists StoredProcedure. split; [| reflexivity].
    apply rule_procedure. now apply creates_procedure_test.
  - assert (N : ~ creates_procedure e).
    { intros H. apply creates_procedure_test in H. congruence. }
    destruct (is_Insert e) eqn:I; [| destruct (is_DDL e) eqn:D].
    + exists Insert. split; [now apply rule_insert | reflexivity].
    + exists DDL. split; [now apply rule_ddl | reflexivity].
    + exists Generic. split; [now apply rule_generic | reflexivity].
Qed.

Lemma upper_char_same_letter (a b : char) :
  (65 <= b <= 90)%N -> upper_char a = b <-> same_letter a b.
Proof.
  intros Hb. unfold upper_char, same_letter, between.
  destruct (N.leb_spec 97 a); destruct (N.leb_spec a 122); simpl; lia.
Qed.

(** A kind is PROCEDURE after [upper] exactly when it reads PROCEDURE
    letter by letter. *)
Lemma upper_spells (k t : str) :
  Forall (fun b => (65 <= b <= 90)%N) t ->
  upper k = t <-> Forall2 same_letter k t.
Proof.
  intros U. revert k. induction U as [| b t Hb _ IH]; intros k.
  - split.
    + destruct k; [constructor | discriminate].
    + intros H. now inversion H.
  - destruct k as [| a k]; [split; [discriminate | intros H; inversion H] |].
    simpl. split.
    + intros E. injection E as Ea Ek. constructor.
      * now apply upper_char_same_letter.
      * now apply IH.
    + intros H. inversion H as [| ? ? ? ? S F]; subst. f_equal.
      * now apply upper_char_same_letter.
      * now apply IH.
Qed.

Lemma procedure_is_upper_case :
  Forall (fun b => (65 <= b <= 90)%N) (lit "PROCEDURE").
Proof. repeat constructor; cbn; lia. Qed.

(** The test of line 59 holds exactly for a creation that declares a kind
    that reads PROCEDURE. *)
Lemma creates_procedure_declares (e : Expression) :
  creates_procedure e <-> declares_procedure e.
Proof.
  unfold creates_procedure, declares_procedure, same_ignoring_case,
    spells_procedure, kind_or_empty.
  change (upper (lit "procedure")) with (lit "PROCEDURE").
  split; intros [Hc H]; (split; [exact Hc |]).
  - destruct (kind e) as [k |]; [| discriminate H].
    exists k. split; [reflexivity |].
    apply (upper_spells _ procedure_is_upper_case).
    destruct k; [discriminate H | exact H].
  - destruct H as [k [-> S]].
    apply (upper_spells _ procedure_is_upper_case) in S.
    destruct k; [discriminate S | exact S].
Qed.

(** C3.  [_query_type] follows the specification's four rules in their
    order.  A creation that declares a kind reading PROCEDURE, in any
    letter case, is a stored procedure; any other insertion is an insert;
    any other DDL statement is DDL; anything else is generic.  The result
    is the name of exactly one of the four classes.  ([_query_type] is a
    function of the parsed expression alone: its body makes no call and
    reads nothing else, which the embedding shows by its type.) *)
Theorem query_type_follows_the_rules (e : Expression) :
  (declares_procedure e -> _query_type e = lit "stored procedure")
  /\ (~ declares_procedure e -> is_Insert e = true ->
        _query_type e = lit "insert query")
  /\ (~ declares_procedure e -> is_Insert e = false -> is_DDL e = true ->
        _query_type e = lit "DDL query")
  /\ (~ declares_procedure e -> is_Insert e = false -> is_DDL e = false ->
        _query_type e = lit "query")
  /\ (creates_procedure e <-> declares_procedure e)
  /\ exists c : HandlingClass,
       classified e c
       /\ _query_type e = class_name c
       /\ (forall c', classified e c' -> c' = c)
       /\ (forall c', _query_type e = class_name c' -> c' = c).
Proof.
  pose proof (creates_procedure_declares e) as D.
  pose proof (creates_procedure_test e) as T.
  assert (Yes : declares_procedure e ->
                is_Create e
                && str_eqb (upper (kind_or_empty e)) (lit "PROCEDURE") = true).
  { intros H. apply T, D, H. }
  assert (No : ~ declares_procedure e ->
               is_Create e
               && str_eqb (upper (kind_or_empty e)) (lit "PROCEDURE") = false).
  { intros H. apply not_true_is_false. intros Q. apply H, D, T, Q. }
  split; [| split; [| split; [| split; [| split]]]].
  - intros H. unfold _query_type. now rewrite (Yes H).
  - intros H I. unfold _query_type. now rewrite (No H), I.
  - intros H I L. unfold _query_type. now rewrite (No H), I, L.
  - intros H I L. unfold _query_type. now rewrite (No H), I, L.
  - exact D.
  - destruct (query_type_classified e) as [c [Hc Hn]].
    exists c. repeat split; trivial.
    + intros c' Hc'. exact (classified_functional Hc' Hc).
    + intros c' Hn'. apply class_name_injective. congruence.
Qed.

(** The kind is compared without regard to letter case: two creations whose
    kinds differ by case only are classified alike. *)
Lemma query_type_ignores_case (e e' : Expression) :
  is_Create e = is_Create e' -> is_Insert e = is_Insert e' ->
  is_DDL e = is_DDL e' ->
  same_ignoring_case (kind_or_empty e) (kind_or_empty e') ->
  _query_type e = _query_type e'.
Proof.
  unfold _query_type, same_ignoring_case. now intros -> -> -> ->.
Qed.

(* ================================================================== *)
(** ** Per-statement conversion                                         *)
(* ================================================================== *)

Section Conversion.

Context {C : Collaborators}.

Lemma convert_statement_run (dialect stmt : str) (tr : Trace) :
  convert_statement dialect stmt tr
  = (inr (entry_of dialect stmt), tr ++ [transpile_event dialect stmt]).
Proof.
  unfold convert_statement, entry_of, transpile_event, bind, try_except,
    call_transpile, call, item0, ret, raise.
  destruct (transpile (rstrip_chars (lit ";") stmt) dialect (lit "singlestore"))
    as [what | [| t rest]]; reflexivity.
Qed.

Lemma convert_each_run (dialect : str) (statements : list str) :
  forall (converted : list str) (tr : Trace),
    convert_each dialect statements converted tr
    = (inr (converted ++ map (entry_of dialect) statements),
       tr ++ map (transpile_event dialect) statements).
Proof.
  induction statements as [| stmt rest IH]; intros converted tr; simpl.
  - unfold ret. now rewrite !app_nil_r.
  - unfold bind. rewrite convert_statement_run, IH.
    now rewrite <- !app_assoc.
Qed.

Lemma entry_of_fallback (dialect stmt : str) :
  transpiler_fails (rstrip_chars (lit ";") stmt) dialect ->
  entry_of dialect stmt = rstrip_chars (lit ";") stmt ++ lit ";".
Proof.
  unfold transpiler_fails, entry_of.
  destruct (transpile (rstrip_chars (lit ";") stmt) dialect (lit "singlestore"))
    as [what | [| t rest]]; intros H; try reflexivity. contradiction.
Qed.

(** What [rstrip_chars] keeps does not end in one of the code points. *)
Lemma rstrip_chars_clean (chars s t : str) (c : char) :
  mem chars c = true -> rstrip_chars chars s <> t ++ [c].
Proof.
  intros M E. unfold rstrip_chars in E.
  apply (f_equal (@rev char)) in E.
  rewrite rev_involutive, rev_app_distr in E. simpl in E.
  apply drop_while_head in E. congruence.
Qed.

(** C1, as the code has it.  When the transpiler fails on a statement (it
    raises, or yields nothing to index), the per-statement conversion of
    [_transpile_procedure] raises nothing and returns the statement's text
    up to its trailing terminators, which is the text the transpiler was
    given and does not end in a terminator, followed by one terminator.
    That value is not the empty string, and it is the statement itself when
    the statement ends in one terminator.  The batch goes on: the entries
    of the statements before and after the failing one are produced as
    usual. *)
Theorem failing_statement_falls_back
    (dialect stmt : str) (tr : Trace) :
  transpiler_fails (rstrip_chars (lit ";") stmt) dialect ->
  let kept := rstrip_chars (lit ";") stmt ++ lit ";" in
  convert_statement dialect stmt tr
    = (inr kept, tr ++ [transpile_event dialect stmt])
  /\ kept <> []
  /\ (exists n : nat, stmt = rstrip_chars (lit ";") stmt ++ repeat 59%N n)
  /\ (forall t, rstrip_chars (lit ";") stmt <> t ++ lit ";")
  /\ (forall body, stmt = body ++ lit ";" ->
        rstrip_chars (lit ";") body = body -> kept = stmt)
  /\ (forall before after : list str,
        convert_each dialect (before ++ stmt :: after) [] tr
        = (inr (map (entry_of dialect) before ++ kept
                :: map (entry_of dialect) after),
           tr ++ map (transpile_event dialect) (before ++ stmt :: after))).
Proof.
  intros F kept. split; [| split; [| split; [| split; [| split]]]].
  - rewrite convert_statement_run. unfold kept. now rewrite entry_of_fallback.
  - unfold kept. intros E. now apply app_eq_nil in E as [_ E].
  - destruct (rstrip_chars_split (lit ";") stmt) as [removed [E R]].
    exists (List.length removed). now rewrite <- (run_of_terminators _ R).
  - intros t. now apply rstrip_chars_clean.
  - intros body E B. unfold kept. subst stmt.
    change (lit ";") with [59%N] at 2.
    rewrite rstrip_chars_drop by reflexivity. now rewrite B.
  - intros before after. rewrite convert_each_run. simpl.
    rewrite map_app. simpl. unfold kept. now rewrite entry_of_fallback.
Qed.

(** C6, as the code has it.  Per-statement conversion removes every trailing
    terminator of the statement, calls the transpiler once, with the text
    left, the source dialect and "singlestore", and returns either the
    transpiler's first output or, when it fails, the text left, in both
    cases followed by one terminator. *)
Theorem conversion_strips_all_appends_one
    (dialect stmt : str) (tr : Trace) :
  exists (text out : str) (n : nat),
    stmt = text ++ repeat 59%N n
    /\ rstrip_chars (lit ";") text = text
    /\ convert_statement dialect stmt tr
       = (inr (out ++ lit ";"),
          tr ++ [Transpile text dialect (lit "singlestore")])
    /\ ((exists rest, transpile text dialect (lit "singlestore")
                      = inr (out :: rest))
        \/ (transpiler_fails text dialect /\ out = text)).
Proof.
  destruct (rstrip_chars_split (lit ";") stmt) as [removed [E R]].
  set (text := rstrip_chars (lit ";") stmt) in *.
  assert (Run := convert_statement_run dialect stmt tr).
  unfold entry_of, transpile_event in Run. fold text in Run.
  destruct (transpile text dialect (lit "singlestore"))
    as [what | [| t rest]] eqn:T.
  - exists text, text, (List.length removed). repeat split.
    + rewrite <- (run_of_terminators _ R). exact E.
    + apply rstrip_chars_fixed.
    + exact Run.
    + right. unfold transpiler_fails. now rewrite T.
  - exists text, text, (List.length removed). repeat split.
    + rewrite <- (run_of_terminators _ R). exact E.
    + apply rstrip_chars_fixed.
    + exact Run.
    + right. unfold transpiler_fails. now rewrite T.
  - exists text, t, (List.length removed). repeat split.
    + rewrite <- (run_of_terminators _ R). exact E.
    + apply rstrip_chars_fixed.
    + exact Run.
    + left. now exists rest.
Qed.

End Conversion.

(* ================================================================== *)
(** ** Decomposition and reassembly                                     *)
(* ================================================================== *)

Lemma stripped_lines_spec (content : str) :
  stripped_lines content = trimmed_nonempty_lines content.
Proof.
  unfold stripped_lines, trimmed_nonempty_lines.
  induction (splitlines content) as [| line rest IH]; simpl; [reflexivity |].
  destruct (truthy (strip line)); simpl; now rewrite IH.
Qed.

Section Procedures.

Context {C : Collaborators}.

Lemma decompose_run (self : LLMWrapper) (sql : str) (tr : Trace) :
  _decompose_procedure self sql tr
  = (match ollama_chat tr (model self) (breakdown_messages sql) with
     | inl what => inl (Foreign Assistant what)
     | inr content => inr (stripped_lines content)
     end, tr ++ [breakdown_call self sql]).
Proof.
  unfold _decompose_procedure, bind, call_ollama_chat, call, ret,
    breakdown_call, breakdown_messages.
  now destruct (ollama_chat tr (model self) _).
Qed.

Lemma reassemble_run (self : LLMWrapper) (sql converted : str) (tr : Trace) :
  _reassemble_procedure self sql converted tr
  = (match ollama_chat tr (model self) (reassemble_messages sql converted) with
     | inl what => inl (Foreign Assistant what)
     | inr content => inr (strip content)
     end, tr ++ [reassemble_call self sql converted]).
Proof.
  unfold _reassemble_procedure, bind, call_ollama_chat, call, ret,
    reassemble_call, reassemble_messages.
  now destruct (ollama_chat tr (model self) _).
Qed.

(** The procedure path once the extraction has answered. *)
Lemma transpile_procedure_run
    (self : LLMWrapper) (sql dialect : str) (tr : Trace) (content : str) :
  ollama_chat tr (model self) (breakdown_messages sql) = inr content ->
  _transpile_procedure self sql dialect tr
  = _reassemble_procedure self sql
      (join nl (map (entry_of dialect) (stripped_lines content)))
      (tr ++ [breakdown_call self sql]
          ++ map (transpile_event dialect) (stripped_lines content)).
Proof.
  intros A. unfold _transpile_procedure, bind at 1.
  rewrite decompose_run, A. unfold bind.
  rewrite convert_each_run. simpl. now rewrite <- app_assoc.
Qed.

Lemma transpile_procedure_extraction_fails
    (self : LLMWrapper) (sql dialect : str) (tr : Trace) (what : str) :
  ollama_chat tr (model self) (breakdown_messages sql) = inl what ->
  _transpile_procedure self sql dialect tr
  = (inl (Foreign Assistant what), tr ++ [breakdown_call self sql]).
Proof.
  intros A. unfold _transpile_procedure, bind at 1.
  now rewrite decompose_run, A.
Qed.


(** C10.  When the extraction answers and no line of its answer is left
    after trimming, the procedure path makes no transpiler call, asks for
    reassembly with an empty text of converted statements, and returns the
    answer to that request, trimmed. *)
Theorem empty_batch_is_reassembled
    (self : LLMWrapper) (sql dialect : str) (tr : Trace)
    (content answer : str) :
  ollama_chat tr (model self) (breakdown_messages sql) = inr content ->
  stripped_lines content = [] ->
  ollama_chat (tr ++ [breakdown_call self sql]) (model self)
              (reassemble_messages sql []) = inr answer ->
  _decompose_procedure self sql tr = (inr [], tr ++ [breakdown_call self sql])
  /\ convert_each dialect [] [] (tr ++ [breakdown_call self sql])
     = (inr [], tr ++ [breakdown_call self sql])
  /\ _transpile_procedure self sql dialect tr
     = (inr (strip answer),
        tr ++ [breakdown_call self sql; reassemble_call self sql []]).
Proof.
  intros A E B. repeat split.
  - now rewrite decompose_run, A, E.
  - rewrite (transpile_procedure_run _ _ _ _ A), E. simpl.
    rewrite reassemble_run, B. now rewrite <- app_assoc.
Qed.

End Procedures.

(* ================================================================== *)
(** ** The coordinator                                                  *)
(* ================================================================== *)

Section Coordinator.

Context {C : Collaborators}.

Lemma to_singlestore_unparsable
    (self : LLMWrapper) (sql dialect : str) (tr : Trace) (what : str) :
  parse_one sql dialect = inl what ->
  to_singlestore self sql dialect tr
  = (inl (invalid_input (Foreign Parser what)), tr ++ [parse_call sql dialect]).
Proof.
  intros P. unfold to_singlestore, bind, try_except, call_parse_one, call, raise.
  now rewrite P.
Qed.

Lemma to_singlestore_procedure
    (self : LLMWrapper) (sql dialect : str) (tr : Trace) (e : Expression) :
  parse_one sql dialect = inr e ->
  _query_type e = lit "stored procedure" ->
  to_singlestore self sql dialect tr
  = _transpile_procedure self sql dialect (tr ++ [parse_call sql dialect]).
Proof.
  intros P K. unfold to_singlestore, bind at 1.
  unfold try_except, call_parse_one, call. rewrite P, K.
  now rewrite str_eqb_refl.
Qed.

Lemma to_singlestore_statement
    (self : LLMWrapper) (sql dialect : str) (tr : Trace) (e : Expression) :
  parse_one sql dialect = inr e ->
  _query_type e <> lit "stored procedure" ->
  to_singlestore self sql dialect tr
  = match transpile sql dialect (lit "singlestore") with
    | inl what =>
        (inl (Foreign Transpiler what),
         tr ++ [parse_call sql dialect; transpile_call sql dialect])
    | inr [] =>
        (inl IndexError,
         tr ++ [parse_call sql dialect; transpile_call sql dialect])
    | inr (transpiled :: _) =>
        (match ollama_chat
                 (tr ++ [parse_call sql dialect; transpile_call sql dialect])
                 (model self)
                 (double_check_messages (_query_type e) transpiled) with
         | inl what => inl (Foreign Assistant what)
         | inr answer => inr (strip answer)
         end,
         tr ++ [parse_call sql dialect; transpile_call sql dialect;
                double_check_call self (_query_type e) transpiled])
    end.
Proof.
  intros P K. apply str_eqb_neq in K.
  unfold to_singlestore, bind at 1.
  unfold try_except, call_parse_one, call. rewrite P, K.
  unfold bind, call_transpile, call_ollama_chat, call, item0, _prompt,
    parse_call, transpile_call, double_check_call, double_check_messages.
  rewrite K.
  destruct (transpile sql dialect (lit "singlestore")) as [w | [| t rest]];
    unfold raise, ret; rewrite <- ?app_assoc; simpl; try reflexivity.
  now destruct (ollama_chat _ (model self) _).
Qed.

Lemma classified_name (e : Expression) (c : HandlingClass) :
  classified e c -> _query_type e = class_name c.
Proof.
  intros H. destruct (query_type_classified e) as [c' [H' N]].
  now rewrite (classified_functional H H').
Qed.

(** C4, as the code has it.  For a unit classified as an insert, DDL or
    generic statement, the pipeline calls the parser, then the transpiler,
    then the assistant, with a double-check prompt that holds the transpiled
    text, and returns the assistant's answer with the surrounding white
    space removed; the transpiler's output is returned in no case. *)
Theorem statement_path_returns_trimmed_answer
    (self : LLMWrapper) (sql dialect : str) (tr : Trace)
    (e : Expression) (c : HandlingClass) (transpiled : str)
    (others : list str) (answer : str) :
  parse_one sql dialect = inr e ->
  classified e c ->
  c <> StoredProcedure ->
  transpile sql dialect (lit "singlestore") = inr (transpiled :: others) ->
  ollama_chat (tr ++ [parse_call sql dialect; transpile_call sql dialect])
              (model self) (double_check_messages (class_name c) transpiled)
    = inr answer ->
  to_singlestore self sql dialect tr
  = (inr (strip answer),
     tr ++ [parse_call sql dialect; transpile_call sql dialect;
            double_check_call self (class_name c) transpiled]).
Proof.
  intros P K N T A. pose proof (classified_name K) as Q.
  rewrite (to_singlestore_statement self sql dialect tr P).
  - now rewrite T, Q, A.
  - rewrite Q. intros E. apply N. now apply class_name_injective.
Qed.

(** C5.  Given a parser that rejects the empty text, an input that is empty
    or that the parser rejects makes [to_singlestore] raise the invalid
    input error, after the call to the parser and no other call; an input
    that the parser accepts never ends in that error. *)
Theorem invalid_input_exactly_when_unparsable
    (self : LLMWrapper) (sql dialect : str) (tr : Trace) :
  (forall read, exists what, parse_one [] read = inl what) ->
  ((sql = [] \/ exists what, parse_one sql dialect = inl what) ->
     exists what,
       to_singlestore self sql dialect tr
       = (inl (invalid_input (Foreign Parser what)),
          tr ++ [parse_call sql dialect])
       /\ is_assistant_call (parse_call sql dialect) = false)
  /\ (forall e, parse_one sql dialect = inr e ->
        is_invalid_input (fst (to_singlestore self sql dialect tr)) = false).
Proof.
  intros Empty. split.
  - intros [-> | [what P]].
    + destruct (Empty dialect) as [what P]. exists what.
      split; [now apply to_singlestore_unparsable | reflexivity].
    + exists what. split; [now apply to_singlestore_unparsable | reflexivity].
  - intros e P.
    destruct (str_eqb (_query_type e) (lit "stored procedure")) eqn:K.
    + apply str_eqb_eq in K. rewrite (to_singlestore_procedure self sql dialect tr P K).
      destruct (ollama_chat (tr ++ [parse_call sql dialect]) (model self)
                  (breakdown_messages sql)) as [what | content] eqn:A.
      * now rewrite (transpile_procedure_extraction_fails _ _ _ _ A).
      * rewrite (transpile_procedure_run _ _ _ _ A), reassemble_run.
        cbn [fst]. destruct_answer; reflexivity.
    + apply str_eqb_neq in K. rewrite (to_singlestore_statement self sql dialect tr P K).
      destruct (transpile sql dialect (lit "singlestore"))
        as [w | [| t rest]]; try reflexivity.
      cbn [fst]. destruct_answer; reflexivity.
Qed.

(** C8.  On the procedure path, an exception of the assistant during
    extraction, or during reassembly, is the outcome of [to_singlestore]:
    the same exception, with no value returned.  After a failed extraction
    no transpiler call is made at all. *)
Theorem assistant_failures_propagate
    (self : LLMWrapper) (sql dialect : str) (tr : Trace) (e : Expression) :
  parse_one sql dialect = inr e ->
  classified e StoredProcedure ->
  let tr0 := tr ++ [parse_call sql dialect] in
  (forall what,
      ollama_chat tr0 (model self) (breakdown_messages sql) = inl what ->
      to_singlestore self sql dialect tr
      = (inl (Foreign Assistant what), tr0 ++ [breakdown_call self sql]))
  /\ (forall content what,
        ollama_chat tr0 (model self) (breakdown_messages sql) = inr content ->
        let joined := join nl (map (entry_of dialect) (stripped_lines content)) in
        let tr2 := tr0 ++ [breakdown_call self sql]
                       ++ map (transpile_event dialect) (stripped_lines content) in
        ollama_chat tr2 (model self) (reassemble_messages sql joined)
          = inl what ->
        to_singlestore self sql dialect tr
        = (inl (Foreign Assistant what),
           tr2 ++ [reassemble_call self sql joined])).
Proof.
  intros P K tr0. pose proof (classified_name K) as Q. simpl in Q. split.
  - intros what A. rewrite (to_singlestore_procedure self sql dialect tr P Q).
    now apply transpile_procedure_extraction_fails.
  - intros content what A joined tr2 B.
    rewrite (to_singlestore_procedure self sql dialect tr P Q).
    rewrite (transpile_procedure_run _ _ _ _ A), reassemble_run.
    fold tr0 joined tr2. now rewrite B.
Qed.

End Coordinator.

(* ================================================================== *)
(** ** Lines and trimming                                               *)
(* ================================================================== *)

Lemma linebreak_is_space (c : char) :
  is_linebreak c = true -> isspace c = true.
Proof.
  unfold is_linebreak, isspace, between.
  rewrite !orb_true_iff, !andb_true_iff, !N.leb_le, !N.eqb_eq. lia.
Qed.

Lemma not_linebreak_not_CR (c : char) :
  is_linebreak c = false -> char_eqb c CR = false.
Proof.
  intros H. unfold char_eqb. destruct (N.eqb_spec c CR) as [-> |]; [| reflexivity].
  discriminate H.
Qed.

Lemma splitlines_from_char (c : char) (cur s : str) :
  is_linebreak c = false ->
  splitlines_from cur (c :: s) = splitlines_from (c :: cur) s.
Proof.
  intros H. cbn [splitlines_from]. now rewrite (not_linebreak_not_CR _ H), H.
Qed.

Lemma splitlines_from_LF (cur s : str) :
  splitlines_from cur (LF :: s) = rev cur :: splitlines_from [] s.
Proof. reflexivity. Qed.

(** A line without boundary that a line feed ends is the next line read. *)
Lemma splitlines_from_line (l : str) :
  no_linebreak l = true ->
  forall cur rest,
    splitlines_from cur (l ++ LF :: rest)
    = (rev cur ++ l) :: splitlines_from [] rest.
Proof.
  induction l as [| c l IH]; intros H cur rest.
  - simpl app. rewrite splitlines_from_LF. now rewrite app_nil_r.
  - simpl in H. apply andb_true_iff in H. destruct H as [Hc Hl].
    apply negb_true_iff in Hc.
    simpl app. rewrite splitlines_from_char by exact Hc. rewrite (IH Hl).
    simpl. now rewrite <- app_assoc.
Qed.

(** The text after the last boundary is the last line, unless it is empty. *)
Lemma splitlines_from_last (l : str) :
  no_linebreak l = true ->
  forall cur, rev cur ++ l <> [] -> splitlines_from cur l = [rev cur ++ l].
Proof.
  induction l as [| c l IH]; intros H cur N.
  - rewrite app_nil_r in *. destruct cur as [| x cur]; [contradiction |].
    reflexivity.
  - simpl in H. apply andb_true_iff in H. destruct H as [Hc Hl].
    apply negb_true_iff in Hc.
    rewrite splitlines_from_char by exact Hc. rewrite (IH Hl).
    + simpl. now rewrite <- app_assoc.
    + simpl. rewrite <- app_assoc. now destruct (rev cur).
Qed.

(** Lines joined by line feeds are split into these lines again. *)
Lemma splitlines_join (lines : list str) :
  Forall (fun l => l <> [] /\ no_linebreak l = true) lines ->
  splitlines (join nl lines) = lines.
Proof.
  unfold splitlines.
  induction lines as [| l rest IH]; intros H; [reflexivity |].
  inversion H as [| ? ? [Hn Hl] Hrest]; subst.
  destruct rest as [| l' rest'].
  - simpl. rewrite splitlines_from_last; [reflexivity | exact Hl | exact Hn].
  - change (join nl (l :: l' :: rest')) with (l ++ LF :: join nl (l' :: rest')).
    rewrite splitlines_from_line by exact Hl. simpl rev. simpl app at 1.
    now rewrite (IH Hrest).
Qed.

(** Every line of a text made of white space is made of white space. *)
Lemma splitlines_from_blank (s : str) :
  forall cur, blank cur = true -> blank s = true ->
    Forall (fun l => blank l = true) (splitlines_from cur s).
Proof.
  assert (R : forall cur, blank cur = true -> blank (rev cur) = true).
  { intros cur H. unfold blank in *. rewrite forallb_forall in *.
    intros x Hx. apply H. now apply in_rev. }
  induction s as [| c s IH]; intros cur Hc Hs.
  - simpl. destruct cur; constructor; [now apply R | constructor].
  - simpl in Hs. apply andb_true_iff in Hs. destruct Hs as [Sc Ss].
    cbn [splitlines_from].
    destruct (char_eqb c CR).
    + destruct s as [| d s'].
      * constructor; [now apply R | constructor].
      * destruct (char_eqb d LF) eqn:D.
        -- constructor; [now apply R |].
           apply N.eqb_eq in D. subst d.
           specialize (IH [] eq_refl Ss). rewrite splitlines_from_LF in IH.
           now inversion IH.
        -- constructor; [now apply R | now apply IH].
    + destruct (is_linebreak c).
      * constructor; [now apply R | now apply IH].
      * apply IH; [| exact Ss]. simpl. now rewrite Sc.
Qed.

(** Conversely, when every line is made of white space, so is the text. *)
Lemma blank_lines_blank_text (s : str) :
  forall cur,
    Forall (fun l => blank l = true) (splitlines_from cur s) ->
    blank cur = true /\ blank s = true.
Proof.
  assert (R : forall cur, blank (rev cur) = true -> blank cur = true).
  { intros cur H. unfold blank in *. rewrite forallb_forall in *.
    intros x Hx. apply H. now apply in_rev in Hx. }
  induction s as [| c s IH]; intros cur H.
  - simpl in H. destruct cur as [| x cur]; [now split |].
    inversion H; subst. split; [now apply R | reflexivity].
  - cbn [splitlines_from] in H.
    destruct (char_eqb c CR) eqn:Ccr.
    + apply N.eqb_eq in Ccr. subst c.
      destruct s as [| d s'].
      * inversion H; subst. split; [now apply R | reflexivity].
      * destruct (char_eqb d LF) eqn:D.
        -- apply N.eqb_eq in D. subst d. inversion H as [| ? ? Hcur Hrest]; subst.
           destruct (IH []) as [_ Hs].
           { rewrite splitlines_from_LF. now constructor. }
           split; [now apply R | exact Hs].
        -- inversion H as [| ? ? Hcur Hrest]; subst.
           destruct (IH [] Hrest) as [_ Hs].
           split; [now apply R | exact Hs].
    + destruct (is_linebreak c) eqn:L.
      * inversion H as [| ? ? Hcur Hrest]; subst.
        destruct (IH [] Hrest) as [_ Hs].
        split; [now apply R |]. simpl.
        now rewrite (linebreak_is_space _ L), Hs.
      * destruct (IH (c :: cur) H) as [Hc Hs]. simpl in Hc.
        apply andb_true_iff in Hc. destruct Hc as [Sc Scur].
        split; [exact Scur |]. simpl. now rewrite Sc, Hs.
Qed.

Lemma strip_blank (l : str) : blank l = true -> strip l = [].
Proof.
  intros H. unfold strip, lstrip, rstrip. now rewrite (drop_while_all _ _ H).
Qed.

Lemma strip_nil_blank (l : str) : strip l = [] -> blank l = true.
Proof.
  unfold strip, lstrip, rstrip, blank. intros H.
  destruct (drop_while_split isspace l) as [d [E F]].
  destruct (drop_while_split isspace (rev (drop_while isspace l)))
    as [d' [E' F']].
  assert (Z : drop_while isspace (rev (drop_while isspace l)) = []).
  { apply (f_equal (@rev char)) in H. now rewrite rev_involutive in H. }
  rewrite Z, app_nil_r in E'. rewrite E, forallb_app, F. simpl.
  rewrite forallb_forall in *. intros x Hx. apply F'. rewrite <- E'.
  now apply in_rev in Hx.
Qed.

(** A text has no line left after trimming exactly when it is made of white
    space only. *)
Lemma stripped_lines_nil_iff (content : str) :
  stripped_lines content = [] <-> blank content = true.
Proof.
  unfold stripped_lines, splitlines. split.
  - intros H. apply map_eq_nil in H.
    apply (blank_lines_blank_text content []).
    apply Forall_forall. intros l Hl.
    destruct (truthy (strip l)) eqn:T.
    + assert (I : In l (filter (fun line => truthy (strip line))
                          (splitlines_from [] content))).
      { apply filter_In. now split. }
      rewrite H in I. contradiction.
    + apply strip_nil_blank. now destruct (strip l).
  - intros H.
    pose proof (splitlines_from_blank content [] eq_refl H) as F.
    induction F as [| l rest Hl _ IH]; [reflexivity |].
    simpl. now rewrite (strip_blank _ Hl).
Qed.

Lemma drop_while_keeps (p : char -> bool) (c : char) (s : str) :
  p c = false -> drop_while p (c :: s) = c :: s.
Proof. intros H. simpl. now rewrite H. Qed.

Lemma rstrip_fixed (s : str) : rstrip (rstrip s) = rstrip s.
Proof.
  unfold rstrip. rewrite rev_involutive. now rewrite drop_while_fixed.
Qed.

(** Trimming twice is trimming once. *)
Lemma strip_fixed (s : str) : strip (strip s) = strip s.
Proof.
  unfold strip at 1. unfold strip, lstrip.
  set (t := drop_while isspace s).
  assert (L : drop_while isspace (rstrip t) = rstrip t).
  { destruct (rstrip t) as [| c r] eqn:E; [reflexivity |].
    apply drop_while_keeps.
    destruct (drop_while_split isspace (rev t)) as [d [Ed Fd]].
    assert (Et : t = rstrip t ++ rev d).
    { unfold rstrip. rewrite <- rev_app_distr, <- Ed.
      now rewrite rev_involutive. }
    rewrite E in Et. simpl in Et.
    apply (drop_while_head isspace s (r := r ++ rev d)). exact Et. }
  rewrite L. apply rstrip_fixed.
Qed.

(** The lines kept are not empty and are trimmed. *)
Lemma trimmed_nonempty_lines_trimmed (content : str) :
  Forall (fun stmt => stmt <> [] /\ strip stmt = stmt)
         (trimmed_nonempty_lines content).
Proof.
  unfold trimmed_nonempty_lines. apply Forall_forall. intros x Hx.
  apply filter_In in Hx. destruct Hx as [Hm Ht].
  apply in_map_iff in Hm. destruct Hm as [l [<- _]]. split.
  - intros E. now rewrite E in Ht.
  - apply strip_fixed.
Qed.

(** Whatever the lines say, they are the batch: lines that are not empty,
    trimmed and free of boundaries come back as they were sent. *)
Lemma trimmed_nonempty_lines_join (lines : list str) :
  Forall (fun l => l <> [] /\ strip l = l /\ no_linebreak l = true) lines ->
  trimmed_nonempty_lines (join nl lines) = lines.
Proof.
  intros H. unfold trimmed_nonempty_lines. rewrite splitlines_join.
  - induction H as [| l rest [Hn [Hs Hl]] _ IH]; [reflexivity |].
    simpl. rewrite Hs, IH. now destruct l.
  - eapply Forall_impl; [| exact H]. now intros l [Hn [_ Hl]].
Qed.

Lemma no_linebreak_rev (l : str) :
  no_linebreak l = true -> no_linebreak (rev l) = true.
Proof.
  unfold no_linebreak. rewrite !forallb_forall.
  intros H x Hx. apply H. now apply in_rev.
Qed.

Lemma blank_rev (l : str) : blank l = true -> blank (rev l) = true.
Proof.
  unfold blank. rewrite !forallb_forall.
  intros H x Hx. apply H. now apply in_rev.
Qed.

(** [splitlines] gives the lines of the text. *)
Lemma lines_of_splitlines_from (n : nat) :
  forall s, List.length s <= n ->
  forall cur, no_linebreak cur = true ->
    lines_of (rev cur ++ s) (splitlines_from cur s).
Proof.
  induction n as [| n IH]; intros s Hn cur Hc.
  - destruct s; [| simpl in Hn; lia]. rewrite app_nil_r. simpl.
    destruct cur as [| x cur]; [constructor |].
    apply lines_last; [| now apply no_linebreak_rev].
    simpl. intros E. now apply app_eq_nil in E as [_ E].
  - destruct s as [| c s'].
    { rewrite app_nil_r. simpl.
      destruct cur as [| x cur]; [constructor |].
      apply lines_last; [| now apply no_linebreak_rev].
      simpl. intros E. now apply app_eq_nil in E as [_ E]. }
    simpl in Hn. cbn [splitlines_from].
    destruct (char_eqb c CR) eqn:Ec.
    + apply N.eqb_eq in Ec. subst c. destruct s' as [| d s''].
      * apply lines_break; [now apply no_linebreak_rev | reflexivity | |].
        -- intros _ rest' H. discriminate H.
        -- constructor.
      * simpl in Hn. destruct (char_eqb d LF) eqn:Ed.
        -- apply N.eqb_eq in Ed. subst d.
           apply lines_crlf; [now apply no_linebreak_rev |].
           apply (IH s'' ltac:(lia) [] eq_refl).
        -- apply lines_break; [now apply no_linebreak_rev | reflexivity | |].
           ++ intros _ rest' H. injection H as Hd _. subst d.
              unfold char_eqb in Ed. now rewrite N.eqb_refl in Ed.
           ++ apply (IH (d :: s'') ltac:(simpl; lia) [] eq_refl).
    + destruct (is_linebreak c) eqn:L.
      * apply lines_break; [now apply no_linebreak_rev | exact L | |].
        -- intros ->. discriminate Ec.
        -- apply (IH s' ltac:(lia) [] eq_refl).
      * replace (rev cur ++ c :: s') with (rev (c :: cur) ++ s')
          by (simpl; now rewrite <- app_assoc).
        apply IH; [lia |]. unfold no_linebreak in *. simpl. now rewrite L.
Qed.

Lemma lines_of_splitlines (content : str) :
  lines_of content (splitlines content).
Proof.
  exact (lines_of_splitlines_from (n := List.length content) content
           (le_n _) [] eq_refl).
Qed.

(** [strip] gives the text without the white space at its two ends. *)
Lemma trimmed_of_strip (line : str) : trimmed_of line (strip line).
Proof.
  unfold strip, lstrip, rstrip.
  destruct (drop_while_split isspace line) as [a [Ea Fa]].
  set (t := drop_while isspace line) in *.
  destruct (drop_while_split isspace (rev t)) as [d [Ed Fd]].
  destruct (drop_while isspace (rev t)) as [| x u] eqn:Eu.
  - exists a, (rev d). rewrite app_nil_r in Ed. simpl.
    repeat split; [| exact Fa | now apply blank_rev].
    rewrite <- Ed, rev_involutive. exact Ea.
  - pose proof (drop_while_head _ _ Eu) as Hx.
    assert (Et : t = (rev u ++ [x]) ++ rev d).
    { rewrite <- (rev_involutive t), Ed, rev_app_distr. reflexivity. }
    exists a, (rev d). simpl rev.
    split; [now rewrite <- Et | split; [exact Fa | split]].
    + now apply blank_rev.
    + unfold clean_ends. destruct (rev u ++ [x]) as [| c r] eqn:E; [exact I |].
      split.
      * apply (drop_while_head isspace line (r := r ++ rev d)).
        fold t. now rewrite Et.
      * rewrite <- E. now rewrite last_last.
Qed.

(** The text without the white space at its two ends is what [strip]
    gives, and nothing else. *)
Lemma trimmed_of_unique (line s : str) :
  trimmed_of line s -> s = strip line.
Proof.
  intros [a [b [E [Ba [Bb Cl]]]]]. subst line.
  destruct s as [| c r].
  - simpl. symmetry. apply strip_blank. unfold blank in *.
    now rewrite forallb_app, Ba, Bb.
  - destruct Cl as [Hc Hl].
    destruct (exists_last (l := c :: r) ltac:(discriminate)) as [s0 [x Es]].
    rewrite Es in Hl. rewrite last_last in Hl.
    unfold strip, lstrip, rstrip.
    change (a ++ (c :: r) ++ b) with (a ++ c :: (r ++ b)).
    rewrite drop_while_app_stop; [| exact Ba | exact Hc].
    change (c :: r ++ b) with ((c :: r) ++ b).
    rewrite Es, rev_app_distr, rev_app_distr. simpl.
    rewrite drop_while_app_stop; [| now apply blank_rev | exact Hl].
    simpl. now rewrite rev_involutive.
Qed.

Lemma kept_from_stripped (lines : list str) :
  kept_from lines
    (map strip (filter (fun line => truthy (strip line)) lines)).
Proof.
  induction lines as [| l lines IH]; simpl; [constructor |].
  pose proof (trimmed_of_strip l) as T.
  destruct (strip l) as [| c r] eqn:E; simpl.
  - now apply kept_discard.
  - rewrite E. apply kept_keep; [exact T | discriminate | exact IH].
Qed.

Lemma kept_from_unique (lines batch : list str) :
  kept_from lines batch ->
  batch = map strip (filter (fun line => truthy (strip line)) lines).
Proof.
  induction 1 as [| l lines batch T _ IH | l s lines batch T N _ IH]; simpl.
  - reflexivity.
  - apply trimmed_of_unique in T. rewrite <- T. exact IH.
  - apply trimmed_of_unique in T. rewrite <- T.
    destruct s; [contradiction |]. simpl. now rewrite <- T, <- IH.
Qed.

Lemma break_not_in_line (l : str) (c : char) (r : str) :
  is_linebreak c = true -> no_linebreak (l ++ c :: r) = false.
Proof.
  intros H. unfold no_linebreak. rewrite forallb_app. simpl. rewrite H.
  simpl. apply andb_false_r.
Qed.

(** The first boundary of a text is where it is. *)
Lemma first_break (l l' : str) (c c' : char) (r r' : str) :
  no_linebreak l = true -> no_linebreak l' = true ->
  is_linebreak c = true -> is_linebreak c' = true ->
  l ++ c :: r = l' ++ c' :: r' -> l = l' /\ c = c' /\ r = r'.
Proof.
  revert l'. induction l as [| a l IH]; intros [| x l'] Hl Hl' Hc Hc' E;
    simpl in *.
  - injection E as -> ->. auto.
  - injection E as -> _. apply andb_true_iff in Hl' as [Hx _].
    rewrite Hc in Hx. discriminate.
  - injection E as -> _. apply andb_true_iff in Hl as [Ha _].
    rewrite Hc' in Ha. discriminate.
  - injection E as -> E. apply andb_true_iff in Hl as [_ Hl].
    apply andb_true_iff in Hl' as [_ Hl'].
    destruct (IH l' Hl Hl' Hc Hc' E) as [-> [-> ->]]. auto.
Qed.

Lemma lines_of_cases (content : str) (ls : list str) :
  lines_of content ls ->
  (content = [] /\ ls = [])
  \/ (content <> [] /\ no_linebreak content = true /\ ls = [content])
  \/ (exists l rest ls0,
        no_linebreak l = true /\ content = l ++ CR :: LF :: rest
        /\ ls = l :: ls0 /\ lines_of rest ls0)
  \/ (exists l c rest ls0,
        no_linebreak l = true /\ is_linebreak c = true
        /\ (c = CR -> forall rest', rest <> LF :: rest')
        /\ content = l ++ c :: rest /\ ls = l :: ls0 /\ lines_of rest ls0).
Proof.
  destruct 1 as [| l Hn Hl | l rest ls Hl Hr | l c rest ls Hl Hc Hs Hr].
  - now left.
  - right. left. auto.
  - right. right. left. exists l, rest, ls. auto.
  - right. right. right. exists l, c, rest, ls. auto 10.
Qed.

(** A text has one list of lines. *)
Lemma lines_of_unique (content : str) (ls : list str) :
  lines_of content ls -> forall ls', lines_of content ls' -> ls' = ls.
Proof.
  induction 1 as [| l Hn Hl | l rest ls Hl Hr IH | l c rest ls Hl Hc Hs Hr IH];
    intros ls' H'; apply lines_of_cases in H';
    destruct H' as [[E ->] | [[N [L ->]] | [[l' [rest' [ls0 [Hl' [E [-> Hr']]]]]]
                   | [l' [c' [rest' [ls0 [Hl' [Hc' [Hs' [E [-> Hr']]]]]]]]]]]].
  - reflexivity.
  - contradiction.
  - now destruct l'.
  - now destruct l'.
  - contradiction.
  - reflexivity.
  - rewrite E, break_not_in_line in Hl by reflexivity. discriminate.
  - rewrite E, break_not_in_line in Hl by exact Hc'. discriminate.
  - now destruct l.
  - rewrite break_not_in_line in L by reflexivity. discriminate.
  - destruct (@first_break l l' CR CR (LF :: rest) (LF :: rest') Hl Hl' eq_refl eq_refl E)
      as [-> [_ R]].
    injection R as ->. now rewrite (IH _ Hr').
  - destruct (@first_break l l' CR c' (LF :: rest) rest' Hl Hl' eq_refl Hc' E)
      as [-> [<- R]].
    exfalso. exact (Hs' eq_refl rest (eq_sym R)).
  - now destruct l.
  - rewrite break_not_in_line in L by exact Hc. discriminate.
  - destruct (@first_break l l' c CR rest (LF :: rest') Hl Hl' Hc eq_refl E)
      as [-> [-> R]].
    exfalso. exact (Hs eq_refl rest' R).
  - destruct (@first_break l l' c c' rest rest' Hl Hl' Hc Hc' E)
      as [-> [-> ->]].
    now rewrite (IH _ Hr').
Qed.

(** C7.  When the assistant answers the extraction request, the batch is its
    answer split into lines, each line trimmed, the lines left empty
    discarded, in the order of the lines.  Lines and trimming are stated
    here without [splitlines] and [strip]: the lines are the stretches of
    the answer between line boundaries, a trimmed line is the line without
    the white space before its first and after its last code point that is
    not white space, and the batch is the one list these two readings
    give.  The only call made is the chat call: no line is parsed or
    checked, and any lines sent come back as the batch, whatever they
    say. *)
Theorem decompose_splits_trims_and_filters
    {C : Collaborators} (self : LLMWrapper) (sql : str) (tr : Trace)
    (content : str) :
  ollama_chat tr (model self) (breakdown_messages sql) = inr content ->
  _decompose_procedure self sql tr
    = (inr (trimmed_nonempty_lines content), tr ++ [breakdown_call self sql])
  /\ (exists lines : list str,
        lines_of content lines
        /\ kept_from lines (trimmed_nonempty_lines content))
  /\ (forall lines batch : list str,
        lines_of content lines -> kept_from lines batch ->
        batch = trimmed_nonempty_lines content)
  /\ Forall (fun stmt => stmt <> [] /\ clean_ends stmt /\ strip stmt = stmt)
            (trimmed_nonempty_lines content)
  /\ (forall lines : list str,
        Forall (fun l => l <> [] /\ strip l = l /\ no_linebreak l = true)
               lines ->
        content = join nl lines ->
        trimmed_nonempty_lines content = lines).
Proof.
  intros A. split; [| split; [| split; [| split]]].
  - now rewrite decompose_run, A, stripped_lines_spec.
  - exists (splitlines content). split; [apply lines_of_splitlines |].
    rewrite <- stripped_lines_spec. apply kept_from_stripped.
  - intros lines batch L K.
    rewrite (lines_of_unique (lines_of_splitlines content) L) in K.
    rewrite <- stripped_lines_spec. now apply kept_from_unique.
  - pose proof (trimmed_nonempty_lines_trimmed content) as T.
    rewrite Forall_forall in *. intros x Hx. destruct (T x Hx) as [Hn Hs].
    repeat split; trivial.
    pose proof (trimmed_of_strip x) as [a [b [_ [_ [_ Cl]]]]].
    now rewrite Hs in Cl.
  - intros lines H ->. now apply trimmed_nonempty_lines_join.
Qed.

(* ================================================================== *)
(** ** The calls a computation makes                                    *)
(* ================================================================== *)

Create HintDb emits.

Lemma emits_ret {A : Type} (P : Event -> Prop) (a : A) : emits P (ret a).
Proof. intros tr. exists []. simpl. now rewrite app_nil_r. Qed.

Lemma emits_raise {A : Type} (P : Event -> Prop) (e : Exc) :
  emits P (raise (A := A) e).
Proof. intros tr. exists []. simpl. now rewrite app_nil_r. Qed.

Lemma emits_call {A : Type} (P : Event -> Prop) (who : Collaborator)
    (ev : Event) (answer : Trace -> str + A) :
  P ev -> emits P (call who ev answer).
Proof. intros H tr. exists [ev]. simpl. split; [reflexivity | now constructor]. Qed.

Lemma emits_bind {A B : Type} (P : Event -> Prop) (m : M A) (k : A -> M B) :
  emits P m -> (forall a, emits P (k a)) -> emits P (bind m k).
Proof.
  intros Hm Hk tr. destruct (Hm tr) as [evs [E F]]. unfold bind.
  destruct (m tr) as [[e | a] tr']; simpl in E; subst tr'.
  - now exists evs.
  - destruct (Hk a (tr ++ evs)) as [evs' [E' F']].
    exists (evs ++ evs'). rewrite E', app_assoc. split; [reflexivity |].
    apply Forall_app. now split.
Qed.

Lemma emits_try_except {A : Type} (P : Event -> Prop) (m : M A)
    (h : Exc -> M A) :
  emits P m -> (forall e, emits P (h e)) -> emits P (try_except m h).
Proof.
  intros Hm Hh tr. destruct (Hm tr) as [evs [E F]]. unfold try_except.
  destruct (m tr) as [[e | a] tr']; simpl in E; subst tr'.
  - destruct (Hh e (tr ++ evs)) as [evs' [E' F']].
    exists (evs ++ evs'). rewrite E', app_assoc. split; [reflexivity |].
    apply Forall_app. now split.
  - now exists evs.
Qed.

Lemma emits_item0 (P : Event -> Prop) (l : list str) : emits P (item0 l).
Proof. destruct l; [apply emits_raise | apply emits_ret]. Qed.

#[export] Hint Resolve emits_ret emits_raise emits_bind emits_try_except
  emits_item0 : emits.

(** Follows the structure of a computation down to its calls. *)
Ltac emits_steps :=
  repeat (first [ apply emits_bind | apply emits_try_except
                | apply emits_call; reflexivity
                | solve [auto with emits] | intro ]).

Section Calls.

Context {C : Collaborators}.

Lemma emits_convert_statement (dialect stmt : str) :
  emits unbounded (convert_statement dialect stmt).
Proof.
  unfold convert_statement, call_transpile. emits_steps.
Qed.

Lemma emits_convert_each (dialect : str) (statements : list str) :
  forall converted, emits unbounded (convert_each dialect statements converted).
Proof.
  induction statements as [| stmt rest IH]; intros converted; simpl.
  - apply emits_ret.
  - apply emits_bind; [apply emits_convert_statement | intros a; apply IH].
Qed.

Lemma emits_transpile_procedure (self : LLMWrapper) (sql dialect : str) :
  emits unbounded (_transpile_procedure self sql dialect).
Proof.
  unfold _transpile_procedure, _decompose_procedure, _reassemble_procedure,
    call_ollama_chat.
  pose proof (emits_convert_each dialect) as Each. emits_steps.
Qed.

Lemma emits_to_singlestore (self : LLMWrapper) (sql dialect : str) :
  emits unbounded (to_singlestore self sql dialect).
Proof.
  unfold to_singlestore, call_parse_one, call_transpile, call_ollama_chat.
  apply emits_bind; [emits_steps |].
  intros e. destruct (str_eqb (_query_type e) (lit "stored procedure")).
  - apply emits_transpile_procedure.
  - emits_steps.
Qed.

(** The call of [_call_llm] in procedure.py carries a timeout of 60. *)
Lemma call_llm_bounded (prompt model url : str) (tr : Trace) :
  snd (Procedure._call_llm prompt model url tr)
  = tr ++ [RequestsPost url
             {| payload_model := model; payload_prompt := prompt;
                payload_stream := false |} (Some 60%N)].
Proof.
  unfold Procedure._call_llm, bind, call.
  destruct (requests_post tr url _ (Some 60%N)) as [what | response];
    [reflexivity |].
  unfold Procedure.raise_for_status, Procedure.response_json.
  destruct (between 400 599 (status_code response)); [reflexivity |].
  simpl. now destruct (json response).
Qed.

End Calls.

(* ================================================================== *)
(** ** The pipeline on examples                                         *)
(* ================================================================== *)

(** C9, as the code has it.  No call that [to_singlestore] makes, the chat
    calls included, is issued with a timeout: a plain statement is converted
    with one chat call, which carries none.  The call of [_call_llm] in
    procedure.py is issued with a timeout of 60. *)
Theorem wrapper_calls_carry_no_timeout :
  (forall (C : Collaborators) (self : LLMWrapper) (sql dialect : str)
          (tr : Trace),
      exists evs,
        snd (to_singlestore self sql dialect tr) = tr ++ evs
        /\ Forall (fun ev => timeout_of ev = None) evs)
  /\ snd (@to_singlestore Demo.demo new_LLMWrapper (lit "SELECT 1")
            default_dialect [])
     = [ parse_call (lit "SELECT 1") default_dialect;
         transpile_call (lit "SELECT 1") default_dialect;
         double_check_call new_LLMWrapper (lit "query") (lit "SELECT 1") ]
  /\ map timeout_of
         (filter is_assistant_call
            (snd (@to_singlestore Demo.demo new_LLMWrapper (lit "SELECT 1")
                    default_dialect [])))
     = [None]
  /\ (forall (C : Collaborators) (prompt model url : str),
        map timeout_of
            (filter is_assistant_call
               (snd (Procedure._call_llm prompt model url [])))
        = [Some 60%N]).
Proof.
  split; [| split; [| split]].
  - intros C self sql dialect tr. apply emits_to_singlestore.
  - vm_compute. reflexivity.
  - vm_compute. reflexivity.
  - intros C prompt model url. now rewrite call_llm_bounded.
Qed.

(** The assistant's answer is not returned as it was received: on the plain
    statement SELECT 1 the assistant answers with a leading space, a
    trailing space and a line feed, and [to_singlestore] returns the answer
    without them. *)
Lemma padded_answer_is_not_returned_verbatim :
  @ollama_chat Demo.demo
     [ parse_call (lit "SELECT 1") default_dialect;
       transpile_call (lit "SELECT 1") default_dialect ]
     (model new_LLMWrapper)
     (double_check_messages (lit "query") (lit "SELECT 1"))
  = inr (lit " SELECT 1 " ++ nl)
  /\ fst (@to_singlestore Demo.demo new_LLMWrapper (lit "SELECT 1")
            default_dialect [])
     = inr (lit "SELECT 1")
  /\ str_eqb (lit "SELECT 1") (lit " SELECT 1 " ++ nl) = false.
Proof. vm_compute. repeat split. Qed.

(** Not one but every trailing terminator is removed before the transpiler
    is called: for a statement that ends in three terminators the
    transpiler receives the text without any of them, where removing a
    single one would leave two; and when the transpiler fails on such a
    statement the entry ends in one terminator, two fewer than the
    statement. *)
Lemma three_terminators_are_all_stripped :
  strip_single_terminator (lit "SELECT 1;;;") = lit "SELECT 1;;"
  /\ @convert_statement Demo.demo (lit "tsql") (lit "SELECT 1;;;") []
     = (inr (lit "SELECT 1;"),
        [Transpile (lit "SELECT 1") (lit "tsql") (lit "singlestore")])
  /\ str_eqb (lit "SELECT 1") (strip_single_terminator (lit "SELECT 1;;;"))
     = false
  /\ @convert_statement Demo.demo (lit "tsql") (lit "SELEC;;;") []
     = (inr (lit "SELEC;"),
        [Transpile (lit "SELEC") (lit "tsql") (lit "singlestore")])
  /\ str_eqb (lit "SELEC;")
             (strip_single_terminator (lit "SELEC;;;") ++ lit ";")
     = false.
Proof. vm_compute. repeat split. Qed.

(** A failing statement does not always come back as it was: the
    transpiler fails on SELEC, and the statement SELEC;; comes back as
    SELEC; which is not the statement. *)
Lemma doubled_terminator_is_not_kept :
  @transpiler_fails Demo.demo (rstrip_chars (lit ";") (lit "SELEC;;"))
                    (lit "tsql")
  /\ fst (@convert_statement Demo.demo (lit "tsql") (lit "SELEC;;") [])
     = inr (lit "SELEC;")
  /\ str_eqb (lit "SELEC;") (lit "SELEC;;") = false.
Proof. vm_compute. repeat split. Qed.

(** [transpile_procedure] of procedure.py has no fallback: the first
    statement the transpiler rejects ends the conversion with the
    transpiler's exception. *)
Example procedure_py_stops_at_a_failing_statement :
  fst (@Procedure.transpile_procedure Demo.demo Demo.procedure_text
         (lit "tsql") (lit "singlestore") Procedure.default_model
         Procedure.LLM_URL [])
  = inl (Foreign Transpiler (lit "Invalid expression")).
Proof. vm_compute. reflexivity. Qed.

(** [extract_transpilable_sql] of procedure.py splits the answer at
    semicolons, not at line boundaries. *)
Example procedure_py_splits_at_semicolons :
  fst (@Procedure.extract_transpilable_sql Demo.demo Demo.procedure_text
         Procedure.default_model Procedure.LLM_URL [])
  = inr [lit "SELECT 1"; lit "SELEC"].
Proof. vm_compute. reflexivity. Qed.

(** The whole procedure path on an example: three statements are extracted,
    the second is rejected by the transpiler and kept as it is, and all
    three reach the reassembly request in their order. *)
Example procedure_path_on_three_statements :
  @to_singlestore Demo.demo new_LLMWrapper Demo.procedure_text
    default_dialect []
  = (inr (lit "SELECT 1"),
     [ parse_call Demo.procedure_text default_dialect;
       breakdown_call new_LLMWrapper Demo.procedure_text;
       Transpile (lit "SELECT 1") default_dialect (lit "singlestore");
       Transpile (lit "SELEC") default_dialect (lit "singlestore");
       Transpile (lit "SELECT 2") default_dialect (lit "singlestore");
       reassemble_call new_LLMWrapper Demo.procedure_text
         (lit "SELECT 1;" ++ nl ++ lit "SELEC;" ++ nl ++ lit "SELECT 2;") ]).
Proof. vm_compute. reflexivity. Qed.

(* ================================================================== *)
(** ** The theorems at concrete inputs                                  *)
(* ================================================================== *)

(** A creation whose kind is written Procedure is a stored procedure, and
    the creation of a table is DDL. *)
Lemma query_type_follows_the_rules_witness :
  _query_type Endpoints.mixed_case_procedure = lit "stored procedure"
  /\ _query_type Endpoints.table_creation = lit "DDL query".
Proof.
  split.
  - apply (proj1 (query_type_follows_the_rules Endpoints.mixed_case_procedure)).
    split; [reflexivity |]. exists (lit "Procedure"). split; [reflexivity |].
    repeat (constructor; [unfold same_letter; cbn; lia |]). constructor.
  - apply (proj1 (proj2 (proj2 (query_type_follows_the_rules
                                  Endpoints.table_creation)))).
    + intros [_ [k [E S]]]. injection E as <-.
      apply Forall2_length in S. discriminate S.
    + reflexivity.
    + reflexivity.
Defined.

(** The statement SELEC;, which the transpiler rejects, is kept. *)
Lemma failing_statement_falls_back_witness :
  @transpiler_fails Demo.demo (rstrip_chars (lit ";") (lit "SELEC;"))
                    (lit "tsql")
  /\ @convert_statement Demo.demo (lit "tsql") (lit "SELEC;") []
     = (inr (lit "SELEC;"),
        [Transpile (lit "SELEC") (lit "tsql") (lit "singlestore")]).
Proof.
  assert (F : @transpiler_fails Demo.demo
                (rstrip_chars (lit ";") (lit "SELEC;")) (lit "tsql")).
  { vm_compute. exact I. }
  split; [exact F |].
  exact (proj1 (@failing_statement_falls_back Demo.demo (lit "tsql")
                  (lit "SELEC;") [] F)).
Defined.


(** The plain statement SELECT 1, classified as generic. *)
Lemma statement_path_returns_trimmed_answer_witness :
  @to_singlestore Demo.demo new_LLMWrapper (lit "SELECT 1") default_dialect []
  = (inr (strip (lit " SELECT 1 " ++ nl)),
     [ parse_call (lit "SELECT 1") default_dialect;
       transpile_call (lit "SELECT 1") default_dialect;
       double_check_call new_LLMWrapper (class_name Generic) (lit "SELECT 1") ]).
Proof.
  apply (@statement_path_returns_trimmed_answer Demo.demo new_LLMWrapper
           (lit "SELECT 1") default_dialect []
           {| is_Create := false; is_Insert := false; is_DDL := false;
              kind := None |}
           Generic (lit "SELECT 1") []).
  - reflexivity.
  - apply rule_generic; [| reflexivity | reflexivity].
    intros [H _]. discriminate H.
  - discriminate.
  - reflexivity.
  - reflexivity.
Defined.

(** The empty input, with the demonstration parser. *)
Lemma invalid_input_exactly_when_unparsable_witness :
  (forall read, exists what, @parse_one Demo.demo [] read = inl what)
  /\ (exists what,
        @to_singlestore Demo.demo new_LLMWrapper [] default_dialect []
        = (inl (invalid_input (Foreign Parser what)),
           [parse_call [] default_dialect])
        /\ is_assistant_call (parse_call [] default_dialect) = false)
  /\ is_invalid_input
       (fst (@to_singlestore Demo.demo new_LLMWrapper (lit "SELECT 1")
               default_dialect []))
     = false.
Proof.
  assert (E : forall read, exists what, @parse_one Demo.demo [] read = inl what).
  { intros read. eexists. reflexivity. }
  split; [exact E | split].
  - apply (proj1 (@invalid_input_exactly_when_unparsable Demo.demo
                    new_LLMWrapper [] default_dialect [] E)).
    left. reflexivity.
  - apply (proj2 (@invalid_input_exactly_when_unparsable Demo.demo
                    new_LLMWrapper (lit "SELECT 1") default_dialect [] E)
             {| is_Create := false; is_Insert := false; is_DDL := false;
                kind := None |}).
    reflexivity.
Defined.

(** An answer with white space on both sides of its lines, an empty line
    and three kinds of boundary. *)
Lemma decompose_splits_trims_and_filters_witness :
  @ollama_chat Endpoints.padded [] (model new_LLMWrapper)
     (breakdown_messages Demo.procedure_text)
  = inr (lit "  SELECT 1;  " ++ [9%N; CR; LF] ++ nl ++ lit "SELEC "
         ++ [12%N] ++ lit " x" ++ nl)
  /\ @_decompose_procedure Endpoints.padded new_LLMWrapper
       Demo.procedure_text []
     = (inr [lit "SELECT 1;"; lit "SELEC"; lit "x"],
        [breakdown_call new_LLMWrapper Demo.procedure_text]).
Proof.
  split; [reflexivity |].
  exact (proj1 (@decompose_splits_trims_and_filters Endpoints.padded
                  new_LLMWrapper Demo.procedure_text []
                  Endpoints.padded_answer eq_refl)).
Defined.

(** An assistant that is down, and one that fails at reassembly. *)
Lemma assistant_failures_propagate_witness :
  @to_singlestore Demo.offline new_LLMWrapper Demo.procedure_text
    default_dialect []
  = (inl (Foreign Assistant (lit "ConnectionError")),
     [ parse_call Demo.procedure_text default_dialect;
       breakdown_call new_LLMWrapper Demo.procedure_text ])
  /\ @to_singlestore Demo.flaky new_LLMWrapper Demo.procedure_text
       default_dialect []
     = (inl (Foreign Assistant (lit "ReadTimeout")),
        [ parse_call Demo.procedure_text default_dialect;
          breakdown_call new_LLMWrapper Demo.procedure_text;
          Transpile (lit "SELECT 1") default_dialect (lit "singlestore");
          reassemble_call new_LLMWrapper Demo.procedure_text
            (lit "SELECT 1;") ]).
Proof.
  assert (K : classified
                {| is_Create := true; is_Insert := false; is_DDL := true;
                   kind := Some (lit "PROCEDURE") |} StoredProcedure).
  { apply rule_procedure. split; reflexivity. }
  split.
  - apply (proj1 (@assistant_failures_propagate Demo.offline new_LLMWrapper
                    Demo.procedure_text default_dialect [] _ eq_refl K)).
    reflexivity.
  - apply (proj2 (@assistant_failures_propagate Demo.flaky new_LLMWrapper
                    Demo.procedure_text default_dialect [] _ eq_refl K)
             (lit "SELECT 1;" ++ nl) (lit "ReadTimeout")).
    + reflexivity.
    + reflexivity.
Defined.

(** An assistant that extracts nothing but white space. *)
Lemma empty_batch_is_reassembled_witness :
  stripped_lines (lit "  " ++ nl ++ nl) = []
  /\ @_transpile_procedure Demo.silent new_LLMWrapper Demo.procedure_text
       default_dialect []
     = (inr (lit "DELIMITER //"),
        [ breakdown_call new_LLMWrapper Demo.procedure_text;
          reassemble_call new_LLMWrapper Demo.procedure_text [] ]).
Proof.
  split; [reflexivity |].
  apply (@empty_batch_is_reassembled Demo.silent new_LLMWrapper
           Demo.procedure_text default_dialect []
           (lit "  " ++ nl ++ nl) (lit " DELIMITER //" ++ nl));
    reflexivity.
Defined.

(* ================================================================== *)
(** ** Further properties of llm_wrapper.py                             *)
(* ================================================================== *)

Lemma drop_while_app_all (p : char -> bool) (a b : str) :
  forallb p a = true -> drop_while p (a ++ b) = drop_while p b.
Proof.
  induction a as [| x a IH]; simpl; [reflexivity |].
  intros H. apply andb_true_iff in H. destruct H as [Hx Ha]. rewrite Hx. auto.
Qed.

Lemma forallb_rev (p : char -> bool) (l : str) :
  forallb p (rev l) = forallb p l.
Proof.
  induction l as [| x l IH]; simpl; [reflexivity |].
  rewrite forallb_app, IH. simpl. rewrite andb_true_r. apply andb_comm.
Qed.

Lemma rstrip_chars_app_run (chars s r : str) :
  forallb (mem chars) r = true ->
  rstrip_chars chars (s ++ r) = rstrip_chars chars s.
Proof.
  intros H. unfold rstrip_chars. rewrite rev_app_distr.
  rewrite drop_while_app_all; [reflexivity |]. now rewrite forallb_rev.
Qed.

Lemma terminators_are_a_run (n : nat) :
  forallb (mem (lit ";")) (repeat 59%N n) = true.
Proof. induction n as [| n IH]; simpl; [reflexivity | exact IH]. Qed.

Lemma filter_assistant_transpile_events (dialect : str) (l : list str) :
  filter is_assistant_call (map (transpile_event dialect) l) = [].
Proof. induction l as [| x l IH]; simpl; [reflexivity | exact IH]. Qed.

Lemma filter_parser_transpile_events (dialect : str) (l : list str) :
  filter is_parser_call (map (transpile_event dialect) l) = [].
Proof. induction l as [| x l IH]; simpl; [reflexivity | exact IH]. Qed.

Lemma filter_transpiler_transpile_events (dialect : str) (l : list str) :
  filter is_transpiler_call (map (transpile_event dialect) l)
  = map (transpile_event dialect) l.
Proof. induction l as [| x l IH]; simpl; [reflexivity | now rewrite IH]. Qed.

Section MoreOfTheWrapper.

Context {C : Collaborators}.

(** The number of trailing terminators of a statement does not matter:
    the transpiler is called with the same text and the same entry is
    appended, however many terminators follow the statement.  A statement
    made of terminators only is converted as the empty statement. *)
Theorem trailing_terminators_do_not_matter
    (dialect stmt : str) (n : nat) (tr : Trace) :
  convert_statement dialect (stmt ++ repeat 59%N n) tr
  = convert_statement dialect stmt tr
  /\ convert_statement dialect (repeat 59%N n) tr
     = convert_statement dialect [] tr.
Proof.
  assert (R : forall s, rstrip_chars (lit ";") (s ++ repeat 59%N n)
                        = rstrip_chars (lit ";") s).
  { intros s. apply rstrip_chars_app_run, terminators_are_a_run. }
  assert (E : forall s, convert_statement dialect (s ++ repeat 59%N n) tr
                        = convert_statement dialect s tr).
  { intros s. rewrite !convert_statement_run.
    unfold entry_of, transpile_event. now rewrite R. }
  split; [apply E |]. exact (E []).
Qed.

(** On the procedure path, when both chat calls are answered, the calls of
    a conversion are: the parser once, the extraction request, the
    transpiler once per extracted statement in the order of the batch, and
    the reassembly request.  The assistant is called twice, and the result
    is the second answer, trimmed. *)
Theorem procedure_path_calls
    (self : LLMWrapper) (sql dialect : str) (tr : Trace) (e : Expression)
    (content answer : str) :
  parse_one sql dialect = inr e ->
  classified e StoredProcedure ->
  ollama_chat (tr ++ [parse_call sql dialect]) (model self)
              (breakdown_messages sql) = inr content ->
  ollama_chat
    (tr ++ [parse_call sql dialect]
        ++ [breakdown_call self sql]
        ++ map (transpile_event dialect) (stripped_lines content))
    (model self)
    (reassemble_messages sql
       (join nl (map (entry_of dialect) (stripped_lines content))))
  = inr answer ->
  exists evs : list Event,
    to_singlestore self sql dialect tr = (inr (strip answer), tr ++ evs)
    /\ filter is_parser_call evs = [parse_call sql dialect]
    /\ filter is_transpiler_call evs
       = map (transpile_event dialect) (stripped_lines content)
    /\ filter is_assistant_call evs
       = [ breakdown_call self sql;
           reassemble_call self sql
             (join nl (map (entry_of dialect) (stripped_lines content))) ].
Proof.
  intros P K A B. pose proof (classified_name K) as Q. simpl in Q.
  set (statements := stripped_lines content) in *.
  set (joined := join nl (map (entry_of dialect) statements)) in *.
  exists ([parse_call sql dialect] ++ [breakdown_call self sql]
          ++ map (transpile_event dialect) statements
          ++ [reassemble_call self sql joined]).
  split; [| split; [| split]].
  - rewrite (to_singlestore_procedure self sql dialect tr P Q).
    rewrite (transpile_procedure_run _ _ _ _ A), reassemble_run.
    fold statements joined.
    replace ((tr ++ [parse_call sql dialect]) ++ [breakdown_call self sql]
             ++ map (transpile_event dialect) statements)
      with (tr ++ [parse_call sql dialect] ++ [breakdown_call self sql]
               ++ map (transpile_event dialect) statements)
      by now rewrite <- app_assoc.
    rewrite B. f_equal. now rewrite <- !app_assoc.
  - simpl. rewrite filter_app, filter_parser_transpile_events. reflexivity.
  - simpl. rewrite filter_app, filter_transpiler_transpile_events. simpl.
    now rewrite app_nil_r.
  - simpl. rewrite filter_app, filter_assistant_transpile_events. reflexivity.
Qed.

(** Outside procedures there is no fallback: when the transpiler raises on
    the input, or yields nothing, [to_singlestore] ends in that exception,
    and the assistant is not called. *)
Theorem statement_path_transpiler_failure
    (self : LLMWrapper) (sql dialect : str) (tr : Trace) (e : Expression)
    (c : HandlingClass) (exc : Exc) :
  parse_one sql dialect = inr e ->
  classified e c ->
  c <> StoredProcedure ->
  Endpoints.failure_of dialect (lit "singlestore") sql = Some exc ->
  to_singlestore self sql dialect tr
  = (inl exc, tr ++ [parse_call sql dialect; transpile_call sql dialect]).
Proof.
  intros P K N F. pose proof (classified_name K) as Q.
  rewrite (to_singlestore_statement self sql dialect tr P).
  - unfold Endpoints.failure_of in F.
    destruct (transpile sql dialect (lit "singlestore")) as [w | [| t rest]];
      now inversion F.
  - rewrite Q. intros E. apply N. now apply class_name_injective.
Qed.

(** Outside procedures an exception of the assistant is the outcome of
    [to_singlestore]: the transpiled text is not returned in its place. *)
Theorem statement_path_assistant_failure
    (self : LLMWrapper) (sql dialect : str) (tr : Trace) (e : Expression)
    (c : HandlingClass) (transpiled : str) (others : list str) (what : str) :
  parse_one sql dialect = inr e ->
  classified e c ->
  c <> StoredProcedure ->
  transpile sql dialect (lit "singlestore") = inr (transpiled :: others) ->
  ollama_chat (tr ++ [parse_call sql dialect; transpile_call sql dialect])
              (model self) (double_check_messages (class_name c) transpiled)
    = inl what ->
  to_singlestore self sql dialect tr
  = (inl (Foreign Assistant what),
     tr ++ [parse_call sql dialect; transpile_call sql dialect;
            double_check_call self (class_name c) transpiled]).
Proof.
  intros P K N T A. pose proof (classified_name K) as Q.
  rewrite (to_singlestore_statement self sql dialect tr P).
  - now rewrite T, Q, A.
  - rewrite Q. intros E. apply N. now apply class_name_injective.
Qed.

(** Whatever the collaborators answer, a conversion starts with the one
    call it makes to the parser and calls the assistant at most twice. *)
Theorem conversion_call_budget
    (self : LLMWrapper) (sql dialect : str) (tr : Trace) :
  exists evs : list Event,
    snd (to_singlestore self sql dialect tr)
    = tr ++ parse_call sql dialect :: evs
    /\ filter is_parser_call evs = []
    /\ List.length (filter is_assistant_call evs) <= 2.
Proof.
  destruct (parse_one sql dialect) as [what | e] eqn:P.
  - exists []. rewrite (to_singlestore_unparsable self sql dialect tr P).
    simpl. auto.
  - destruct (str_eqb (_query_type e) (lit "stored procedure")) eqn:K.
    + apply str_eqb_eq in K.
      rewrite (to_singlestore_procedure self sql dialect tr P K).
      destruct (ollama_chat (tr ++ [parse_call sql dialect]) (model self)
                  (breakdown_messages sql)) as [what | content] eqn:A.
      * exists [breakdown_call self sql].
        rewrite (transpile_procedure_extraction_fails _ _ _ _ A). simpl.
        rewrite <- app_assoc. simpl. auto.
      * exists (breakdown_call self sql
                :: map (transpile_event dialect) (stripped_lines content)
                ++ [reassemble_call self sql
                      (join nl (map (entry_of dialect)
                                    (stripped_lines content)))]).
        rewrite (transpile_procedure_run _ _ _ _ A), reassemble_run.
        cbn [snd]. split; [| split].
        -- now rewrite <- !app_assoc.
        -- simpl. rewrite filter_app, filter_parser_transpile_events.
           reflexivity.
        -- simpl. rewrite filter_app, filter_assistant_transpile_events.
           simpl. lia.
    + apply str_eqb_neq in K.
      rewrite (to_singlestore_statement self sql dialect tr P K).
      destruct (transpile sql dialect (lit "singlestore"))
        as [w | [| t rest]].
      * exists [transpile_call sql dialect]. simpl. auto.
      * exists [transpile_call sql dialect]. simpl. auto.
      * exists [transpile_call sql dialect;
                double_check_call self (_query_type e) t]. simpl. auto.
Qed.

End MoreOfTheWrapper.

(** Every line that [splitlines] returns is free of line boundaries. *)
Lemma splitlines_from_no_linebreak (s : str) :
  forall cur, no_linebreak cur = true ->
    Forall (fun l => no_linebreak l = true) (splitlines_from cur s).
Proof.
  assert (R : forall cur, no_linebreak cur = true ->
                          no_linebreak (rev cur) = true).
  { intros cur H. unfold no_linebreak. now rewrite forallb_rev. }
  induction s as [| c s IH]; intros cur Hc.
  - simpl. destruct cur; constructor; [now apply R | constructor].
  - cbn [splitlines_from].
    destruct (char_eqb c CR).
    + destruct s as [| d s'].
      * constructor; [now apply R | constructor].
      * destruct (char_eqb d LF) eqn:D.
        -- constructor; [now apply R |].
           apply N.eqb_eq in D. subst d.
           specialize (IH [] eq_refl). rewrite splitlines_from_LF in IH.
           now inversion IH.
        -- constructor; [now apply R | now apply IH].
    + destruct (is_linebreak c) eqn:L.
      * constructor; [now apply R | now apply IH].
      * apply IH. unfold no_linebreak. simpl. now rewrite L.
Qed.

(** Trimming keeps a part of the text. *)
Lemma strip_part (l : str) :
  exists before after, l = before ++ strip l ++ after.
Proof.
  unfold strip, lstrip, rstrip.
  destruct (drop_while_split isspace l) as [d [E _]].
  destruct (drop_while_split isspace (rev (drop_while isspace l)))
    as [d' [E' _]].
  exists d, (rev d'). rewrite <- rev_app_distr, <- E', rev_involutive.
  exact E.
Qed.

Lemma strip_keeps (p : char -> bool) (l : str) :
  forallb p l = true -> forallb p (strip l) = true.
Proof.
  intros H. destruct (strip_part l) as [b [a E]].
  rewrite E, !forallb_app in H.
  apply andb_true_iff in H. destruct H as [_ H].
  apply andb_true_iff in H. now destruct H.
Qed.

(** Every statement of a batch is one line, trimmed and not empty. *)
Lemma stripped_lines_shape (content : str) :
  Forall (fun stmt => stmt <> [] /\ strip stmt = stmt
                      /\ no_linebreak stmt = true)
         (stripped_lines content).
Proof.
  apply Forall_forall. intros x Hx.
  pose proof (trimmed_nonempty_lines_trimmed content) as T.
  rewrite <- stripped_lines_spec in T.
  rewrite Forall_forall in T. destruct (T x Hx) as [Hn Hs].
  repeat split; trivial.
  unfold stripped_lines in Hx. apply in_map_iff in Hx.
  destruct Hx as [l [<- Hl]]. apply filter_In in Hl. destruct Hl as [Hl _].
  apply strip_keeps.
  pose proof (splitlines_from_no_linebreak content [] eq_refl) as F.
  rewrite Forall_forall in F. now apply F.
Qed.

(** Decomposition gives statements of one line each, trimmed and not
    empty, and it is stable: sending the batch back, one statement per
    line, gives the same batch. *)
Theorem decomposition_is_stable (content : str) :
  Forall (fun stmt => stmt <> [] /\ strip stmt = stmt
                      /\ no_linebreak stmt = true)
         (stripped_lines content)
  /\ stripped_lines (join nl (stripped_lines content))
     = stripped_lines content.
Proof.
  split; [apply stripped_lines_shape |].
  rewrite (stripped_lines_spec (join nl (stripped_lines content))).
  apply trimmed_nonempty_lines_join, stripped_lines_shape.
Qed.

(** When no converted statement holds a line boundary, the text handed to
    reassembly has one line per statement of the batch, in the order of
    the batch: splitting it into lines gives the entries back. *)
Theorem joined_text_has_one_line_per_statement
    {C : Collaborators} (dialect : str) (statements : list str) :
  Forall (fun stmt => no_linebreak (entry_of dialect stmt) = true) statements ->
  splitlines (join nl (map (entry_of dialect) statements))
  = map (entry_of dialect) statements.
Proof.
  intros H. apply splitlines_join.
  apply Forall_forall. intros x Hx. apply in_map_iff in Hx.
  destruct Hx as [stmt [<- Hs]]. rewrite Forall_forall in H. split.
  - unfold entry_of.
    destruct (transpile (rstrip_chars (lit ";") stmt) dialect (lit "singlestore"))
      as [w | [| t rest]]; intros E; now apply app_eq_nil in E as [_ E].
  - now apply H.
Qed.

(** A statement that falls back is converted to one line when it is one. *)
Lemma fallback_entry_is_one_line
    {C : Collaborators} (dialect stmt : str) :
  no_linebreak stmt = true ->
  transpiler_fails (rstrip_chars (lit ";") stmt) dialect ->
  no_linebreak (entry_of dialect stmt) = true.
Proof.
  intros H F. rewrite (entry_of_fallback _ _ F).
  unfold no_linebreak. rewrite forallb_app. apply andb_true_iff. split.
  - destruct (rstrip_chars_split (lit ";") stmt) as [r [E _]].
    unfold no_linebreak in H. rewrite E, forallb_app in H.
    apply andb_true_iff in H. now destruct H.
  - reflexivity.
Qed.


(* ================================================================== *)
(** ** Properties of procedure.py                                       *)
(* ================================================================== *)

Lemma split_from_char (sep c : char) (cur s : str) :
  char_eqb c sep = false ->
  split_from sep cur (c :: s) = split_from sep (c :: cur) s.
Proof. intros H. simpl. now rewrite H. Qed.

Lemma split_from_sep (sep : char) (cur s : str) :
  split_from sep cur (sep :: s) = rev cur :: split_from sep [] s.
Proof. simpl. unfold char_eqb. now rewrite N.eqb_refl. Qed.

Lemma split_from_field (sep : char) (l : str) :
  no_sep sep l = true ->
  forall cur rest,
    split_from sep cur (l ++ sep :: rest)
    = (rev cur ++ l) :: split_from sep [] rest.
Proof.
  induction l as [| c l IH]; intros H cur rest.
  - simpl app. rewrite split_from_sep. now rewrite app_nil_r.
  - simpl in H. apply andb_true_iff in H. destruct H as [Hc Hl].
    apply negb_true_iff in Hc. simpl app.
    rewrite split_from_char by exact Hc. rewrite (IH Hl).
    simpl. now rewrite <- app_assoc.
Qed.

Lemma split_from_last (sep : char) (l : str) :
  no_sep sep l = true ->
  forall cur, split_from sep cur l = [rev cur ++ l].
Proof.
  induction l as [| c l IH]; intros H cur.
  - simpl. now rewrite app_nil_r.
  - simpl in H. apply andb_true_iff in H. destruct H as [Hc Hl].
    apply negb_true_iff in Hc.
    rewrite split_from_char by exact Hc. rewrite (IH Hl).
    simpl. now rewrite <- app_assoc.
Qed.

(** Fields joined by the separator are split into these fields again. *)
Lemma split_join (sep : char) (parts : list str) :
  parts <> [] ->
  Forall (fun l => no_sep sep l = true) parts ->
  split sep (join [sep] parts) = parts.
Proof.
  unfold split. induction parts as [| l rest IH]; intros N H; [contradiction |].
  inversion H as [| ? ? Hl Hrest]; subst.
  destruct rest as [| l' rest'].
  - simpl. rewrite split_from_last by exact Hl. reflexivity.
  - change (join [sep] (l :: l' :: rest'))
      with (l ++ sep :: join [sep] (l' :: rest')).
    rewrite split_from_field by exact Hl. simpl rev. simpl app at 1.
    rewrite IH; [reflexivity | discriminate | exact Hrest].
Qed.

(** No field that [split] returns holds the separator. *)
Lemma split_from_no_sep (sep : char) (s : str) :
  forall cur, no_sep sep cur = true ->
    Forall (fun l => no_sep sep l = true) (split_from sep cur s).
Proof.
  assert (R : forall cur, no_sep sep cur = true -> no_sep sep (rev cur) = true).
  { intros cur H. unfold no_sep. now rewrite forallb_rev. }
  induction s as [| c s IH]; intros cur Hc; simpl.
  - constructor; [now apply R | constructor].
  - destruct (char_eqb c sep) eqn:E.
    + constructor; [now apply R | now apply IH].
    + apply IH. unfold no_sep. simpl. now rewrite E.
Qed.

Lemma dict_get_missing (d : list (str * str)) (key default : str) :
  (forall v, ~ In (key, v) d) -> dict_get d key default = default.
Proof.
  induction d as [| [k v] d IH]; intros H; simpl; [reflexivity |].
  destruct (str_eqb k key) eqn:E.
  - apply str_eqb_eq in E. subst k. exfalso. apply (H v). now left.
  - apply IH. intros v' Hv. apply (H v'). now right.
Qed.

Lemma dict_get_found (before : list (str * str)) (key value : str)
    (rest : list (str * str)) (default : str) :
  (forall v, ~ In (key, v) before) ->
  dict_get (before ++ (key, value) :: rest) key default = value.
Proof.
  induction before as [| [k v] before IH]; intros H; simpl.
  - now rewrite str_eqb_refl.
  - destruct (str_eqb k key) eqn:E.
    + apply str_eqb_eq in E. subst k. exfalso. apply (H v). now left.
    + apply IH. intros v' Hv. apply (H v'). now right.
Qed.

Section ProcedurePy.

Context {C : Collaborators}.

Import Endpoints.

Lemma call_llm_run (prompt model url : str) (tr : Trace) :
  Procedure._call_llm prompt model url tr
  = (match requests_post tr url (payload_of prompt model) (Some 60%N) with
     | inl what => inl (Foreign Endpoint what)
     | inr response =>
         if between 400 599 (status_code response)
         then inl (HTTPError (status_code response))
         else match json response with
              | None => inl (Foreign Endpoint (lit "JSONDecodeError"))
              | Some data => inr (dict_get data (lit "response") (lit ""))
              end
     end, tr ++ [post_call prompt model url]).
Proof.
  unfold Procedure._call_llm, bind, call, post_call, payload_of.
  destruct (requests_post tr url _ (Some 60%N)) as [what | response];
    [reflexivity |].
  unfold Procedure.raise_for_status, Procedure.response_json.
  destruct (between 400 599 (status_code response)); [reflexivity |].
  simpl. now destruct (json response).
Qed.

(** [_call_llm] issues one request in every case, and gives no text when
    the request fails: an exception of the transport is passed on, a status
    from 400 to 599 raises an HTTP error even when the body holds a
    response, and a body that is not JSON raises. *)
Theorem call_llm_failures (prompt model url : str) (tr : Trace) :
  snd (Procedure._call_llm prompt model url tr)
    = tr ++ [post_call prompt model url]
  /\ (forall what,
        requests_post tr url (payload_of prompt model) (Some 60%N) = inl what ->
        fst (Procedure._call_llm prompt model url tr)
        = inl (Foreign Endpoint what))
  /\ (forall response,
        requests_post tr url (payload_of prompt model) (Some 60%N)
          = inr response ->
        (400 <= status_code response <= 599)%N ->
        fst (Procedure._call_llm prompt model url tr)
        = inl (HTTPError (status_code response)))
  /\ (forall response,
        requests_post tr url (payload_of prompt model) (Some 60%N)
          = inr response ->
        json response = None ->
        exists e, fst (Procedure._call_llm prompt model url tr) = inl e).
Proof.
  rewrite call_llm_run. cbn [fst snd]. repeat split.
  - intros what R. now rewrite R.
  - intros response R [Lo Hi]. rewrite R.
    unfold between. apply N.leb_le in Lo, Hi. now rewrite Lo, Hi.
  - intros response R J. rewrite R, J.
    destruct (between 400 599 (status_code response)); eexists; reflexivity.
Qed.

(** When the endpoint answers with a status outside 400 to 599 and a JSON
    object, [_call_llm] returns the value under the key response, wherever
    the key stands in the object, and the empty string when the object has
    no such key. *)
Theorem call_llm_reads_the_response_key
    (prompt model url : str) (tr : Trace) (response : HttpResponse)
    (data : list (str * str)) :
  requests_post tr url (payload_of prompt model) (Some 60%N) = inr response ->
  between 400 599 (status_code response) = false ->
  json response = Some data ->
  (forall before text rest,
      data = before ++ (lit "response", text) :: rest ->
      (forall v, ~ In (lit "response", v) before) ->
      fst (Procedure._call_llm prompt model url tr) = inr text)
  /\ ((forall v, ~ In (lit "response", v) data) ->
      fst (Procedure._call_llm prompt model url tr) = inr []).
Proof.
  intros R S J. rewrite call_llm_run, R, S, J. cbn [fst]. split.
  - intros before text rest -> H. now rewrite dict_get_found.
  - intros H. now rewrite dict_get_missing.
Qed.

Lemma extract_run (procedure model url : str) (tr : Trace) :
  Procedure.extract_transpilable_sql procedure model url tr
  = (match fst (Procedure._call_llm (extract_prompt procedure) model url tr) with
     | inl e => inl e
     | inr raw =>
         inr (map strip (filter (fun s => truthy (strip s)) (split 59%N raw)))
     end, tr ++ [post_call (extract_prompt procedure) model url]).
Proof.
  unfold Procedure.extract_transpilable_sql, bind.
  fold (extract_prompt procedure).
  pose proof (call_llm_run (extract_prompt procedure) model url tr) as R.
  destruct (Procedure._call_llm (extract_prompt procedure) model url tr)
    as [[e | raw] tr'] eqn:E; inversion R; subst; reflexivity.
Qed.

(** Every statement that [extract_transpilable_sql] returns is trimmed, not
    empty, and holds no semicolon. *)
Theorem extracted_statements_shape
    (procedure model url : str) (tr : Trace) (statements : list str) :
  fst (Procedure.extract_transpilable_sql procedure model url tr)
    = inr statements ->
  Forall (fun stmt => stmt <> [] /\ strip stmt = stmt
                      /\ no_terminator stmt = true) statements.
Proof.
  rewrite extract_run. cbn [fst].
  destruct (fst (Procedure._call_llm _ model url tr)) as [e | raw];
    [discriminate |].
  intros H. inversion H; subst. clear H.
  apply Forall_forall. intros x Hx. apply in_map_iff in Hx.
  destruct Hx as [l [<- Hl]]. apply filter_In in Hl. destruct Hl as [Hl Ht].
  repeat split.
  - intros E. now rewrite E in Ht.
  - apply strip_fixed.
  - apply strip_keeps.
    pose proof (split_from_no_sep 59%N raw [] eq_refl) as F.
    rewrite Forall_forall in F. now apply F.
Qed.

(** Statements that are trimmed, not empty and free of semicolons, sent
    back separated by semicolons, are extracted as they are, in their
    order; a semicolon after the last one changes nothing. *)
Theorem extraction_round_trip
    (procedure model url : str) (tr : Trace) (statements : list str)
    (raw : str) :
  Forall (fun stmt => stmt <> [] /\ strip stmt = stmt
                      /\ no_terminator stmt = true) statements ->
  raw = join (lit ";") statements \/ raw = join (lit ";") statements ++ lit ";" ->
  fst (Procedure._call_llm (extract_prompt procedure) model url tr) = inr raw ->
  Procedure.extract_transpilable_sql procedure model url tr
  = (inr statements, tr ++ [post_call (extract_prompt procedure) model url]).
Proof.
  intros F Raw A. rewrite extract_run, A. f_equal. f_equal.
  assert (K : forall l : list str,
             Forall (fun stmt => stmt <> [] /\ strip stmt = stmt
                                 /\ no_terminator stmt = true) l ->
             map strip (filter (fun s => truthy (strip s)) l) = l).
  { intros l H. induction H as [| x l [Hn [Hs _]] _ IH]; [reflexivity |].
    simpl. rewrite Hs. destruct x; [contradiction |]. simpl.
    now rewrite Hs, IH. }
  assert (S : Forall (fun l => no_sep 59%N l = true) statements).
  { eapply Forall_impl; [| exact F]. now intros l [_ [_ H]]. }
  destruct statements as [| s0 rest].
  - destruct Raw as [-> | ->]; reflexivity.
  - destruct Raw as [-> | ->].
    + rewrite split_join; [now apply K | discriminate | exact S].
    + change (lit ";") with [59%N].
      replace (join [59%N] (s0 :: rest) ++ [59%N])
        with (join [59%N] ((s0 :: rest) ++ [[]])).
      * rewrite split_join.
        -- rewrite filter_app, map_app, (K _ F). simpl. now rewrite app_nil_r.
        -- discriminate.
        -- apply Forall_app. split; [exact S | now constructor].
      * clear. generalize s0. induction rest as [| s1 rest IH]; intros s.
        -- reflexivity.
        -- change (join [59%N] ((s :: s1 :: rest) ++ [[]]))
             with (s ++ [59%N] ++ join [59%N] ((s1 :: rest) ++ [[]])).
           rewrite IH. simpl. now rewrite <- !app_assoc.
Qed.

End ProcedurePy.

Section TranspileProcedurePy.

Context {C : Collaborators}.

Import Endpoints.

Lemma transpile_all_succeeds (read write : str) (statements outs : list str) :
  Forall2 (fun stmt out => first_output read write stmt = Some out)
          statements outs ->
  forall tr,
    Procedure.transpile_all read write statements tr
    = (inr outs, tr ++ map (plain_transpile_event read write) statements).
Proof.
  induction 1 as [| stmt out statements outs Hout _ IH]; intros tr.
  - simpl. unfold ret. now rewrite app_nil_r.
  - simpl. unfold bind at 1. unfold call_transpile, call.
    unfold first_output in Hout.
    destruct (transpile stmt read write) as [w | [| t rest]];
      try discriminate.
    inversion Hout; subst. unfold bind at 1. simpl item0. unfold ret at 1.
    unfold bind. rewrite IH. unfold ret, plain_transpile_event.
    now rewrite <- app_assoc.
Qed.

Lemma transpile_all_stops (read write : str) (before outs : list str)
    (stmt : str) (after : list str) (exc : Exc) :
  Forall2 (fun s out => first_output read write s = Some out) before outs ->
  failure_of read write stmt = Some exc ->
  forall tr,
    Procedure.transpile_all read write (before ++ stmt :: after) tr
    = (inl exc,
       tr ++ map (plain_transpile_event read write) (before ++ [stmt])).
Proof.
  intros H F. induction H as [| s out before outs Hout _ IH]; intros tr.
  - simpl. unfold bind at 1. unfold call_transpile, call.
    unfold failure_of in F.
    destruct (transpile stmt read write) as [w | [| t rest]];
      try discriminate; now inversion F.
  - simpl. unfold bind at 1. unfold call_transpile, call.
    unfold first_output in Hout.
    destruct (transpile s read write) as [w | [| t rest]]; try discriminate.
    unfold bind at 1. simpl item0. unfold ret at 1.
    unfold bind. rewrite IH. unfold plain_transpile_event.
    now rewrite <- app_assoc.
Qed.

Lemma transpile_procedure_after_extraction
    (procedure read write model url : str) (tr tr1 : Trace)
    (statements : list str) :
  Procedure.extract_transpilable_sql procedure model url tr
    = (inr statements, tr1) ->
  Procedure.transpile_procedure procedure read write model url tr
  = match Procedure.transpile_all read write statements tr1 with
    | (inl e, tr2) => (inl e, tr2)
    | (inr converted, tr2) =>
        (inr (delimited (join (lit ";" ++ nl) converted ++ lit ";")), tr2)
    end.
Proof.
  intros E. unfold Procedure.transpile_procedure, bind at 1. rewrite E.
  unfold bind.
  now destruct (Procedure.transpile_all read write statements tr1)
    as [[e | converted] tr2].
Qed.

(** When every extracted statement transpiles, [transpile_procedure] calls
    the transpiler once per statement, in their order, and returns the
    first outputs, each followed by a semicolon, between the DELIMITER
    lines. *)
Theorem transpile_procedure_wraps_the_outputs
    (procedure read write model url : str) (tr tr1 : Trace)
    (statements outs : list str) :
  Procedure.extract_transpilable_sql procedure model url tr
    = (inr statements, tr1) ->
  Forall2 (fun stmt out => first_output read write stmt = Some out)
          statements outs ->
  Procedure.transpile_procedure procedure read write model url tr
  = (inr (delimited (join (lit ";" ++ nl) outs ++ lit ";")),
     tr1 ++ map (plain_transpile_event read write) statements).
Proof.
  intros E H. rewrite (transpile_procedure_after_extraction _ _ _ _ _ _ E).
  rewrite transpile_all_succeeds with (outs := outs); [reflexivity | exact H].
Qed.

(** [transpile_procedure] has no fallback: at the first statement the
    transpiler fails on, the conversion ends in that exception, the outputs
    of the statements before it are dropped, and the statements after it
    are never sent to the transpiler. *)
Theorem transpile_procedure_stops_at_first_failure
    (procedure read write model url : str) (tr tr1 : Trace)
    (before outs : list str) (stmt : str) (after : list str) (exc : Exc) :
  Procedure.extract_transpilable_sql procedure model url tr
    = (inr (before ++ stmt :: after), tr1) ->
  Forall2 (fun s out => first_output read write s = Some out) before outs ->
  failure_of read write stmt = Some exc ->
  Procedure.transpile_procedure procedure read write model url tr
  = (inl exc,
     tr1 ++ map (plain_transpile_event read write) (before ++ [stmt])).
Proof.
  intros E H F. rewrite (transpile_procedure_after_extraction _ _ _ _ _ _ E).
  rewrite transpile_all_stops with (outs := outs) (exc := exc);
    [reflexivity | exact H | exact F].
Qed.

(** When nothing is extracted, [transpile_procedure] makes no transpiler
    call and returns a body that is a lone semicolon between the DELIMITER
    lines. *)
Theorem transpile_procedure_of_nothing
    (procedure read write model url : str) (tr tr1 : Trace) :
  Procedure.extract_transpilable_sql procedure model url tr = (inr [], tr1) ->
  Procedure.transpile_procedure procedure read write model url tr
  = (inr (lit "DELIMITER //" ++ nl ++ lit ";" ++ nl ++ lit "//" ++ nl
          ++ lit "DELIMITER ;"), tr1).
Proof.
  intros E. now rewrite (transpile_procedure_after_extraction _ _ _ _ _ _ E).
Qed.

(** A failure of the endpoint is the outcome of [transpile_procedure]: the
    same exception, after the one request, with no transpiler call. *)
Theorem transpile_procedure_endpoint_failure
    (procedure read write model url : str) (tr : Trace) (exc : Exc) :
  fst (Procedure._call_llm (extract_prompt procedure) model url tr) = inl exc ->
  Procedure.transpile_procedure procedure read write model url tr
  = (inl exc, tr ++ [post_call (extract_prompt procedure) model url]).
Proof.
  intros A. unfold Procedure.transpile_procedure, bind at 1.
  now rewrite extract_run, A.
Qed.

End TranspileProcedurePy.

(* ================================================================== *)
(** ** Properties of streamlit_app.py                                   *)
(* ================================================================== *)

From Stdlib Require Import Sorted Permutation.






Lemma contains_In (l : list str) (x : str) :
  App.contains l x = true <-> In x l.
Proof.
  unfold App.contains. rewrite existsb_exists. split.
  - intros [y [Hy E]]. apply str_eqb_eq in E. now subst.
  - intros H. exists x. split; [exact H | apply str_eqb_refl].
Qed.

Lemma index_first (l : list str) (x : str) :
  In x l ->
  exists i, App.index l x = Some i
            /\ nth_error l i = Some x
            /\ (forall j, j < i -> nth_error l j <> Some x).
Proof.
  induction l as [| y l IH]; intros H; [contradiction |]. simpl.
  destruct (str_eqb y x) eqn:E.
  - apply str_eqb_eq in E. subst y. exists 0. repeat split. intros j Hj. lia.
  - apply str_eqb_neq in E. destruct H as [-> | H]; [contradiction |].
    destruct (IH H) as [i [Hi [Hn Hf]]]. rewrite Hi. exists (S i).
    repeat split; [exact Hn |].
    intros [| j] Hj; simpl.
    + intros Q. inversion Q. contradiction.
    + apply Hf. lia.
Qed.


(** The index preselected in the select box is always defined: it is the
    first position of tsql among the dialects offered when tsql is one of
    them, and 0 otherwise. *)
Theorem default_index_points_at_tsql (DIALECTS : list str) :
  exists i : nat,
    App.default_index DIALECTS = Some i
    /\ (In (lit "tsql") (App.source_dialects DIALECTS) ->
          nth_error (App.source_dialects DIALECTS) i = Some (lit "tsql")
          /\ (forall j, j < i ->
                nth_error (App.source_dialects DIALECTS) j
                <> Some (lit "tsql")))
    /\ (~ In (lit "tsql") (App.source_dialects DIALECTS) -> i = 0).
Proof.
  unfold App.default_index.
  destruct (App.contains (App.source_dialects DIALECTS) (lit "tsql")) eqn:E.
  - apply contains_In in E. destruct (index_first _ _ E) as [i [Hi [Hn Hf]]].
    exists i. repeat split; trivial. intros N. contradiction.
  - exists 0. split; [reflexivity | split].
    + intros H. apply contains_In in H. congruence.
    + reflexivity.
Qed.

Section Handler.

Context {C : Collaborators}.

(** The handler of the Convert button never raises.  With an empty text
    area it makes no call and renders nothing.  Otherwise it makes the
    calls of one conversion and renders either the heading and the
    translated text, or one error message for the exception the conversion
    ended in, whatever that exception is. *)
Theorem handler_never_raises (sql source : str) (tr : Trace) :
  exists widgets : list App.Widget,
    fst (App.on_convert sql source tr) = inr widgets
    /\ (sql = [] ->
          widgets = [] /\ snd (App.on_convert sql source tr) = tr)
    /\ (sql <> [] ->
          snd (App.on_convert sql source tr)
            = snd (to_singlestore new_LLMWrapper sql source tr)
          /\ widgets
             = match fst (to_singlestore new_LLMWrapper sql source tr) with
               | inr translated =>
                   [ App.Subheader (lit "SingleStore SQL");
                     App.Code translated (lit "sql") ]
               | inl e => [App.Error e]
               end).
Proof.
  unfold App.on_convert. destruct sql as [| c sql].
  - exists []. simpl. split; [reflexivity | split].
    + now intros _.
    + intros N. contradiction.
  - cbn [truthy]. unfold try_except, bind.
    destruct (to_singlestore new_LLMWrapper (c :: sql) source tr)
      as [[e | translated] tr'].
    + exists [App.Error e]. cbn [fst snd]. split; [now destruct e | split].
      * discriminate.
      * intros _. now destruct e.
    + exists [App.Subheader (lit "SingleStore SQL");
              App.Code translated (lit "sql")].
      cbn [fst snd]. split; [reflexivity | split].
      * discriminate.
      * now intros _.
Qed.

(** A text that the parser rejects is answered with the invalid input
    error, after the call to the parser and no other call. *)
Theorem handler_shows_invalid_input
    (sql source : str) (tr : Trace) (what : str) :
  sql <> [] ->
  parse_one sql source = inl what ->
  App.on_convert sql source tr
  = (inr [App.Error (invalid_input (Foreign Parser what))],
     tr ++ [parse_call sql source]).
Proof.
  intros N P. unfold App.on_convert. destruct sql as [| c sql];
    [contradiction |].
  cbn [truthy]. unfold try_except, bind.
  now rewrite (to_singlestore_unparsable new_LLMWrapper _ _ tr P).
Qed.

End Handler.

(* ================================================================== *)
(** ** The further properties at concrete inputs                        *)
(* ================================================================== *)

Lemma plain_expression_is_generic :
  classified Endpoints.plain_expression Generic.
Proof.
  apply rule_generic; [| reflexivity | reflexivity].
  intros [H _]. discriminate H.
Qed.

Lemma procedure_expression_is_a_procedure :
  classified Endpoints.procedure_expression StoredProcedure.
Proof. apply rule_procedure. split; reflexivity. Qed.

(** The demonstration procedure, converted with the demonstration
    assistant. *)
Lemma procedure_path_calls_witness :
  exists evs : list Event,
    @to_singlestore Demo.demo new_LLMWrapper Demo.procedure_text
      default_dialect []
    = (inr (lit "SELECT 1"), evs)
    /\ List.length (filter is_transpiler_call evs) = 3
    /\ List.length (filter is_assistant_call evs) = 2.
Proof.
  destruct (@procedure_path_calls Demo.demo new_LLMWrapper Demo.procedure_text
              default_dialect [] Endpoints.procedure_expression
              (lit "SELECT 1;;;" ++ nl ++ lit "  SELEC;" ++ nl ++ nl
               ++ lit "SELECT 2" ++ nl)
              (lit " SELECT 1 " ++ nl)
              eq_refl procedure_expression_is_a_procedure eq_refl eq_refl)
    as [evs [Run [_ [T A]]]].
  exists evs. split; [exact Run | split].
  - now rewrite T.
  - now rewrite A.
Defined.

(** A plain statement with a transpiler that supports nothing. *)
Lemma statement_path_transpiler_failure_witness :
  @to_singlestore Endpoints.unsupporting new_LLMWrapper (lit "SELECT 1")
    default_dialect []
  = (inl (Foreign Transpiler (lit "UnsupportedError")),
     [ parse_call (lit "SELECT 1") default_dialect;
       transpile_call (lit "SELECT 1") default_dialect ]).
Proof.
  apply (@statement_path_transpiler_failure Endpoints.unsupporting
           new_LLMWrapper (lit "SELECT 1") default_dialect []
           Endpoints.plain_expression Generic).
  - reflexivity.
  - exact plain_expression_is_generic.
  - discriminate.
  - reflexivity.
Defined.

(** A plain statement with an assistant that is down. *)
Lemma statement_path_assistant_failure_witness :
  @to_singlestore Demo.offline new_LLMWrapper (lit "SELECT 1")
    default_dialect []
  = (inl (Foreign Assistant (lit "ConnectionError")),
     [ parse_call (lit "SELECT 1") default_dialect;
       transpile_call (lit "SELECT 1") default_dialect;
       double_check_call new_LLMWrapper (lit "query") (lit "SELECT 1") ]).
Proof.
  apply (@statement_path_assistant_failure Demo.offline new_LLMWrapper
           (lit "SELECT 1") default_dialect [] Endpoints.plain_expression
           Generic (lit "SELECT 1") [] (lit "ConnectionError")).
  - reflexivity.
  - exact plain_expression_is_generic.
  - discriminate.
  - reflexivity.
  - reflexivity.
Defined.

(** Three statements, the second of which falls back. *)
Lemma joined_text_has_one_line_per_statement_witness :
  splitlines (lit "SELECT 1;" ++ nl ++ lit "SELEC;" ++ nl ++ lit "SELECT 2;")
  = [lit "SELECT 1;"; lit "SELEC;"; lit "SELECT 2;"].
Proof.
  apply (@joined_text_has_one_line_per_statement Demo.demo (lit "tsql")
           [lit "SELECT 1;;;"; lit "SELEC;"; lit "SELECT 2"]).
  repeat constructor.
Defined.


(** An answer that holds the response after another key, and an answer
    that has no response key. *)
Lemma call_llm_reads_the_response_key_witness :
  fst (@Procedure._call_llm (Endpoints.answering Endpoints.late_key_response)
         (lit "hello") Procedure.default_model Procedure.LLM_URL [])
  = inr (lit "SELECT 1")
  /\ fst (@Procedure._call_llm (Endpoints.answering Endpoints.keyless_response)
            (lit "hello") Procedure.default_model Procedure.LLM_URL [])
     = inr [].
Proof.
  split.
  - apply (proj1 (@call_llm_reads_the_response_key
                    (Endpoints.answering Endpoints.late_key_response)
                    (lit "hello") Procedure.default_model Procedure.LLM_URL []
                    Endpoints.late_key_response
                    [(lit "model", lit "llama2");
                     (lit "response", lit "SELECT 1")]
                    eq_refl eq_refl eq_refl)
             [(lit "model", lit "llama2")] (lit "SELECT 1") []).
    + reflexivity.
    + intros v [H | []]. discriminate H.
  - apply (proj2 (@call_llm_reads_the_response_key
                    (Endpoints.answering Endpoints.keyless_response)
                    (lit "hello") Procedure.default_model Procedure.LLM_URL []
                    Endpoints.keyless_response
                    [(lit "model", lit "llama2")] eq_refl eq_refl eq_refl)).
    intros v [H | []]. discriminate H.
Defined.

(** The answer of the demonstration endpoint. *)
Lemma extracted_statements_shape_witness :
  Forall (fun stmt => stmt <> [] /\ strip stmt = stmt
                      /\ no_terminator stmt = true)
         [lit "SELECT 1"; lit "SELEC"].
Proof.
  apply (@extracted_statements_shape Demo.demo Demo.procedure_text
           Procedure.default_model Procedure.LLM_URL []).
  reflexivity.
Defined.

(** Two statements, with a semicolon after the last. *)
Lemma extraction_round_trip_witness :
  fst (@Procedure.extract_transpilable_sql
         (Endpoints.answering (Endpoints.ok_response (lit "SELECT 1;SELECT 2;")))
         Demo.procedure_text Procedure.default_model Procedure.LLM_URL [])
  = inr [lit "SELECT 1"; lit "SELECT 2"].
Proof.
  rewrite (@extraction_round_trip
             (Endpoints.answering (Endpoints.ok_response (lit "SELECT 1;SELECT 2;")))
             Demo.procedure_text Procedure.default_model Procedure.LLM_URL []
             [lit "SELECT 1"; lit "SELECT 2"] (lit "SELECT 1;SELECT 2;")).
  - reflexivity.
  - repeat constructor; discriminate.
  - right. reflexivity.
  - reflexivity.
Defined.

(** Two statements that both transpile. *)
Lemma transpile_procedure_wraps_the_outputs_witness :
  fst (@Procedure.transpile_procedure
         (Endpoints.answering (Endpoints.ok_response (lit "SELECT 1; SELECT 2")))
         Demo.procedure_text (lit "tsql") (lit "singlestore")
         Procedure.default_model Procedure.LLM_URL [])
  = inr (lit "DELIMITER //" ++ nl ++ lit "SELECT 1;" ++ nl ++ lit "SELECT 2;"
         ++ nl ++ lit "//" ++ nl ++ lit "DELIMITER ;").
Proof.
  rewrite (@transpile_procedure_wraps_the_outputs
             (Endpoints.answering (Endpoints.ok_response (lit "SELECT 1; SELECT 2")))
             Demo.procedure_text (lit "tsql") (lit "singlestore")
             Procedure.default_model Procedure.LLM_URL []
             [Endpoints.post_call (Endpoints.extract_prompt Demo.procedure_text)
                Procedure.default_model Procedure.LLM_URL]
             [lit "SELECT 1"; lit "SELECT 2"] [lit "SELECT 1"; lit "SELECT 2"]).
  - reflexivity.
  - reflexivity.
  - repeat constructor.
Defined.

(** Three statements, the second of which the transpiler rejects. *)
Lemma transpile_procedure_stops_at_first_failure_witness :
  @Procedure.transpile_procedure
     (Endpoints.answering
        (Endpoints.ok_response (lit "SELECT 1; SELEC; SELECT 2")))
     Demo.procedure_text (lit "tsql") (lit "singlestore")
     Procedure.default_model Procedure.LLM_URL []
  = (inl (Foreign Transpiler (lit "Invalid expression")),
     [ Endpoints.post_call (Endpoints.extract_prompt Demo.procedure_text)
         Procedure.default_model Procedure.LLM_URL;
       Transpile (lit "SELECT 1") (lit "tsql") (lit "singlestore");
       Transpile (lit "SELEC") (lit "tsql") (lit "singlestore") ]).
Proof.
  apply (@transpile_procedure_stops_at_first_failure
           (Endpoints.answering
              (Endpoints.ok_response (lit "SELECT 1; SELEC; SELECT 2")))
           Demo.procedure_text (lit "tsql") (lit "singlestore")
           Procedure.default_model Procedure.LLM_URL []
           [Endpoints.post_call (Endpoints.extract_prompt Demo.procedure_text)
              Procedure.default_model Procedure.LLM_URL]
           [lit "SELECT 1"] [lit "SELECT 1"] (lit "SELEC") [lit "SELECT 2"]).
  - reflexivity.
  - repeat constructor.
  - reflexivity.
Defined.

(** An answer made of a semicolon and blanks. *)
Lemma transpile_procedure_of_nothing_witness :
  fst (@Procedure.transpile_procedure
         (Endpoints.answering (Endpoints.ok_response (lit " ; ")))
         Demo.procedure_text (lit "tsql") (lit "singlestore")
         Procedure.default_model Procedure.LLM_URL [])
  = inr (lit "DELIMITER //" ++ nl ++ lit ";" ++ nl ++ lit "//" ++ nl
         ++ lit "DELIMITER ;").
Proof.
  rewrite (@transpile_procedure_of_nothing
             (Endpoints.answering (Endpoints.ok_response (lit " ; ")))
             Demo.procedure_text (lit "tsql") (lit "singlestore")
             Procedure.default_model Procedure.LLM_URL []
             [Endpoints.post_call (Endpoints.extract_prompt Demo.procedure_text)
                Procedure.default_model Procedure.LLM_URL]).
  - reflexivity.
  - reflexivity.
Defined.

(** An endpoint that cannot be reached. *)
Lemma transpile_procedure_endpoint_failure_witness :
  @Procedure.transpile_procedure Endpoints.unreachable Demo.procedure_text
     (lit "tsql") (lit "singlestore") Procedure.default_model
     Procedure.LLM_URL []
  = (inl (Foreign Endpoint (lit "ConnectionError")),
     [ Endpoints.post_call (Endpoints.extract_prompt Demo.procedure_text)
         Procedure.default_model Procedure.LLM_URL ]).
Proof.
  apply (@transpile_procedure_endpoint_failure Endpoints.unreachable
           Demo.procedure_text (lit "tsql") (lit "singlestore")
           Procedure.default_model Procedure.LLM_URL []).
  reflexivity.
Defined.

(** The text SELEC, which the demonstration parser rejects. *)
Lemma handler_shows_invalid_input_witness :
  @App.on_convert Demo.demo (lit "SELEC") (lit "tsql") []
  = (inr [App.Error (invalid_input
                       (Foreign Parser (lit "Invalid expression")))],
     [parse_call (lit "SELEC") (lit "tsql")]).
Proof.
  apply (@handler_shows_invalid_input Demo.demo (lit "SELEC") (lit "tsql") []).
  - discriminate.
  - reflexivity.
Defined.
